(** * nucampsiteServer: authentication, authorization and the route handlers

    A shallow embedding of the Express application: [authenticate.js], the
    users router, the campsite router and the favorite router.  Handlers are
    functions from the request (and the collections they touch) to the new
    collections and an outcome: what was written on [res], or what was handed
    to [next].  Promise chains [.then(..).catch(err => next(err))] are written
    as a match on the result of the query. *)

From Stdlib Require Import ZArith Lia.
From stdpp Require Import gmap strings list.

Open Scope string_scope.
Open Scope list_scope.

(** ** JavaScript values and errors *)

(** Mongo ObjectIds travel as their hex string (route parameters, JSON). *)
Definition ObjectId := string.

(** The values a parsed JSON body or a document field holds.  A key that is
    absent from an object reads as [undefined]: lookups return [option]. *)
Inductive JsValue :=
| JNull
| JBool (b : bool)
| JNum (n : Z)
| JStr (s : string)
| JId (o : ObjectId).

(** An object literal or parsed JSON object: property name to value. *)
Abbreviation JsObject := (gmap string JsValue).

(** [if (v)] on an optional property. *)
Definition truthy (v : option JsValue) : bool :=
  match v with
  | None => false
  | Some JNull => false
  | Some (JBool b) => b
  | Some (JNum n) => negb (n =? 0)%Z
  | Some (JStr s) => negb (String.eqb s "")
  | Some (JId _) => true
  end.

(** [new Error(message)], with the [status] property the handlers add. *)
Record JsError := mkError {
  err_name : string;
  err_message : string;
  err_status : option nat
}.

Definition Error (message : string) : JsError := mkError "Error" message None.
Definition with_status (e : JsError) (s : nat) : JsError :=
  mkError (err_name e) (err_message e) (Some s).
Definition TypeError (message : string) : JsError := mkError "TypeError" message None.
Definition ReferenceError (message : string) : JsError :=
  mkError "ReferenceError" message None.

(** What a middleware or handler does with a request.  [B] is the type of the
    JSON bodies of the router at hand. *)
Inductive Outcome (B : Type) :=
| NextOk                                   (* next() *)
| NextErr (e : JsError)                    (* next(err) *)
| ResJson (status : nat) (body : B)        (* res.statusCode = ..; res.json(..) *)
| ResEnd (status : nat) (text : string)    (* res.statusCode = ..; res.end(..) *)
| ResRedirect (cleared : list string) (location : string)
                                           (* res.clearCookie(..); res.redirect(..) *)
| Thrown (e : JsError).                    (* an exception leaves the handler *)
Arguments NextOk {B}.
Arguments NextErr {B} e.
Arguments ResJson {B} status body.
Arguments ResEnd {B} status text.
Arguments ResRedirect {B} cleared location.
Arguments Thrown {B} e.

(** The HTTP status an outcome carries, if any. *)
Definition status_of {B} (o : Outcome B) : option nat :=
  match o with
  | NextOk => None
  | NextErr e => err_status e
  | ResJson status _ => Some status
  | ResEnd status _ => Some status
  | ResRedirect _ _ => Some 302
  | Thrown e => err_status e
  end.

(** ** Collections

    A collection of a Mongoose model ([models/user], [models/campsite],
    [models/favorite]) is the list of its documents in insertion order; a
    query resolves with a value or rejects with an error.  Whether the
    schema and the indexes accept a document on [save] is a parameter. *)

Inductive Query (A : Type) :=
| Resolved (v : A)
| Rejected (e : JsError).
Arguments Resolved {A} v.
Arguments Rejected {A} e.

Section Collection.
Context {A : Type}.
Variable id_of : A -> ObjectId.
Variable accepts : list A -> A -> bool.

(** [Model.findOne(filter)]: the first document the filter selects. *)
Definition findOne (filter : A -> bool) (c : list A) : Query (option A) :=
  Resolved (List.find filter c).

Definition findById (c : list A) (i : ObjectId) : Query (option A) :=
  findOne (fun d => String.eqb (id_of d) i) c.

Definition ValidationError : JsError := mkError "ValidationError" "save rejected" None.

(** [Model.create(doc)], or [save] on a document made with [new Model]:
    the document is inserted. *)
Definition create (c : list A) (d : A) : Query (list A * A) :=
  if accepts c d then Resolved (c ++ [d], d) else Rejected ValidationError.

(** The first document with the [_id] of [d] is replaced by [d]. *)
Fixpoint replace (c : list A) (d : A) : list A :=
  match c with
  | [] => []
  | x :: c' => if String.eqb (id_of x) (id_of d) then d :: c' else x :: replace c' d
  end.

(** [doc.save()] on a document that was loaded from the collection. *)
Definition save (c : list A) (d : A) : Query (list A * A) :=
  if accepts c d then Resolved (replace c d, d) else Rejected ValidationError.

(** [Model.findByIdAndDelete(id)]: the first document with that id goes. *)
Fixpoint remove_id (c : list A) (i : ObjectId) : list A :=
  match c with
  | [] => []
  | x :: c' => if String.eqb (id_of x) i then c' else x :: remove_id c' i
  end.
End Collection.

(** ** models/user: the fields the sources read and write *)

Record User := mkUser {
_id : ObjectId;
username : string;
facebookId : option string;
firstname : option string;
lastname : option string;
admin : bool;
salt : string;
hash : string
}.

(** [new User({ username })] with the id the driver draws for it. *)
Definition new_User (oid : ObjectId) (name : string) : User :=
mkUser oid name None None None false "" "".

(** ** The local-credentials plugin of the User model

    [User.register] and [User.authenticate] come from the
    passport-local-mongoose plugin that [models/user] installs.  The
    key-derivation function is a parameter. *)
Module PassportLocalMongoose.

Inductive LocalError := UserNotFound | BadCredentials | UsernameTaken.

Definition findByUsername (users : list User) (name : string) : option User :=
  List.find (fun u => String.eqb (username u) name) users.

Section Plugin.
Variable kdf : string -> string -> string.

(** Modelled from the spec: [User.register], of the plugin, is not in the
    sources.  It fails with [UsernameTaken] if the username already exists;
    otherwise it creates and persists a new user with a salted one-way hash
    of the password.  [new_salt] is the salt drawn for this registration. *)
Definition register (users : list User) (user : User) (password new_salt : string)
  : LocalError + (list User * User) :=
  match findByUsername users (username user) with
  | Some _ => inl UsernameTaken
  | None =>
      let user := mkUser (_id user) (username user) (facebookId user)
                    (firstname user) (lastname user) (admin user)
                    new_salt (kdf password new_salt) in
      inr (users ++ [user], user)
  end.

(** Modelled from the spec: [User.authenticate], of the plugin, is not in
    the sources.  It looks the user up by username, fails with
    [UserNotFound] if absent and with [BadCredentials] if the password does
    not match the stored hash, and returns the user record otherwise. *)
Definition authenticate (users : list User) (name password : string)
  : LocalError + User :=
  match findByUsername users name with
  | None => inl UserNotFound
  | Some user =>
      if String.eqb (kdf password (salt user)) (hash user) then inr user
      else inl BadCredentials
  end.

End Plugin.
End PassportLocalMongoose.

(** * authenticate.js *)
Module Authenticate.

(** [exports.local = passport.use(new localStrategy(User.authenticate()))] *)
Definition local := PassportLocalMongoose.authenticate.

(** ** The token library

    A token is a signed structure holding the user reference, [iat] and
    [exp], in whole seconds.  The signature function is a parameter. *)

Record Payload := mkPayload {
  jwt_id : ObjectId;          (* the [_id] property of the signed object *)
  iat : Z;
  exp : Z
}.

Record Token := mkToken {
  payload : Payload;
  signature : string
}.

Inductive AuthError := InvalidSignature | Expired.

Section Jwt.
Variable hmac : string -> Payload -> string.

(** Modelled from the spec: [jwt.sign], of the jsonwebtoken library, is not
    in the sources.  It produces a signed token embedding the user id, the
    time of issue and an expiry of now + [expiresIn]. *)
Definition jwt_sign (user_id : ObjectId) (secret : string) (expiresIn : Z) (now : Z)
  : Token :=
  let p := mkPayload user_id now (now + expiresIn) in
  mkToken p (hmac secret p).

(** Modelled from the spec: the verification that the JwtStrategy runs on
    the bearer token is not in the sources.  It fails with
    [InvalidSignature] if the signature does not match, with [Expired] at
    any time [>= exp], and otherwise returns the embedded payload. *)
Definition jwt_verify (token : Token) (secret : string) (now : Z)
  : AuthError + Payload :=
  if String.eqb (signature token) (hmac secret (payload token)) then
    if (exp (payload token) <=? now)%Z then inl Expired
    else inr (payload token)
  else inl InvalidSignature.

(** ** The module itself.  [config.secretKey] comes from [config.js]. *)
Variable secretKey : string.

(** [exports.getToken]: [user] is the object [{ _id }] the login route builds. *)
Definition getToken (user_id : ObjectId) (now : Z) : Token :=
  jwt_sign user_id secretKey 3600 now.

(** [opts.secretOrKey = config.secretKey] *)
Definition opts_secretOrKey : string := secretKey.

(** The error-first callback [done(err, user)]; [false] for the user is [None]. *)
Inductive Done := done (err : option JsError) (user : option User).

(** [exports.jwtPassport]: the verify callback of the JwtStrategy. *)
Definition jwtPassport (users : list User) (jwt_payload : Payload) : Done :=
  match findOne (fun u => String.eqb (_id u) (jwt_id jwt_payload)) users with
  | Rejected err => done (Some err) None
  | Resolved (Some user) => done None (Some user)
  | Resolved None => done None None
  end.

(** What [passport.authenticate] leaves on the request. *)
Inductive Authn :=
| Authenticated (user : User)      (* req.user = user; next() *)
| Unauthorized                     (* 401, the handler is not reached *)
| AuthnError (e : JsError).        (* next(err) *)

Definition of_done (d : Done) : Authn :=
  match d with
  | done (Some err) _ => AuthnError err
  | done None (Some user) => Authenticated user
  | done None None => Unauthorized
  end.

(** [exports.verifyUser = passport.authenticate('jwt', { session: false })]:
    the bearer token of the Authorization header ([opts.jwtFromRequest]), if
    any, is verified with [opts.secretOrKey]; only then the callback of
    [jwtPassport] runs, and the request is answered 401 unless it resolves a
    user. *)
Definition verifyUser (users : list User) (now : Z) (authorization : option Token)
  : Authn :=
  match authorization with
  | None => Unauthorized
  | Some token =>
      match jwt_verify token opts_secretOrKey now with
      | inl _ => Unauthorized
      | inr jwt_payload => of_done (jwtPassport users jwt_payload)
      end
  end.

End Jwt.

(** ** Facebook login *)

(** The profile the provider returns: [profile.id], [profile.displayName],
    [profile.name.givenName] and [profile.name.familyName]. *)
Record ProfileName := mkName {
  givenName : option string;
  familyName : option string
}.

Record Profile := mkProfile {
  id : string;
  displayName : string;
  name : ProfileName
}.

Section Facebook.
Variable accepts : list User -> User -> bool.

(** [exports.facebookPassport]: the verify callback of the
    FacebookTokenStrategy.  [oid] is the id [new User] draws. *)
Definition facebookPassport (users : list User) (oid : ObjectId) (profile : Profile)
  : list User * Done :=
  match findOne (fun u => bool_decide (facebookId u = Some (id profile))) users with
  | Rejected err => (users, done (Some err) None)
  | Resolved (Some user) => (users, done None (Some user))
  | Resolved None =>
      let user := new_User oid (displayName profile) in
      let user := mkUser (_id user) (username user) (Some (id profile))
                    (givenName (name profile)) (familyName (name profile))
                    (admin user) (salt user) (hash user) in
      match create accepts users user with
      | Rejected err => (users, done (Some err) None)
      | Resolved (users', user) => (users', done None (Some user))
      end
  end.

End Facebook.

(** [exports.verifyAdmin]: [req.user] is the user [verifyUser] resolved. *)
Definition verifyAdmin {B} (req_user : User) : Outcome B :=
  if admin req_user then NextOk
  else
    let err := Error "You are not authorized to perform this operation!" in
    let err := with_status err 403 in
    NextErr err.

End Authenticate.

(** * routes/users.js *)
Module Users.
Import Authenticate.

(** [req.body] of the signup and login routes. *)
Record Credentials := mkCredentials {
  body_username : string;
  body_password : string;
  body_firstname : option string;
  body_lastname : option string
}.

Inductive Body :=
| RegisterErr (err : PassportLocalMongoose.LocalError)   (* { err: err } *)
| SaveErr (err : JsError)                                (* { err: err } *)
| Status (success : bool) (status : string)              (* { success, status } *)
| LoggedIn (success : bool) (token : Token) (status : string).

Section Routes.
Variable kdf : string -> string -> string.
Variable hmac : string -> Payload -> string.
Variable secretKey : string.
Variable accepts : list User -> User -> bool.

(** [passport.authenticate('local')]: on success [req.user] is set and the
    next function runs; otherwise passport answers 401. *)
Definition passport_local (users : list User) (body : Credentials) : Authn :=
  match local kdf users (body_username body) (body_password body) with
  | inr user => Authenticated user
  | inl _ => Unauthorized
  end.

(** [router.get('/', verifyUser, verifyAdmin, ...)] *)
Definition users_get (users : list User) (now : Z) (authorization : option Token)
  : Outcome Body :=
  match verifyUser hmac secretKey users now authorization with
  | Unauthorized => ResEnd 401 "Unauthorized"
  | AuthnError e => NextErr e
  | Authenticated user =>
      match verifyAdmin user with
      | NextOk => ResEnd 200 "respond with a resource"
      | o => o
      end
  end.

(** [router.post('/signup', ...)]: [oid] and [new_salt] are the id and the
    salt drawn for the new user. *)
Definition signup (users : list User) (body : Credentials) (oid : ObjectId)
  (new_salt : string) : list User * Outcome Body :=
  match PassportLocalMongoose.register kdf users
          (new_User oid (body_username body)) (body_password body) new_salt with
  | inl err => (users, ResJson 500 (RegisterErr err))
  | inr (users, user) =>
      let user :=
        if truthy (JStr <$> body_firstname body)
        then mkUser (_id user) (username user) (facebookId user)
               (body_firstname body) (lastname user) (admin user) (salt user) (hash user)
        else user in
      let user :=
        if truthy (JStr <$> body_lastname body)
        then mkUser (_id user) (username user) (facebookId user)
               (firstname user) (body_lastname body) (admin user) (salt user) (hash user)
        else user in
      match save _id accepts users user with
      | Rejected err => (users, ResJson 500 (SaveErr err))
      | Resolved (users, _) =>
          match passport_local users body with
          | Authenticated _ =>
              (users, ResJson 200 (Status true "Registration Successful!"))
          | Unauthorized => (users, ResEnd 401 "Unauthorized")
          | AuthnError e => (users, NextErr e)
          end
      end
  end.

(** [router.post('/login', passport.authenticate('local'), ...)] *)
Definition login (users : list User) (body : Credentials) (now : Z) : Outcome Body :=
  match passport_local users body with
  | Authenticated req_user =>
      let token := getToken hmac secretKey (_id req_user) now in
      ResJson 200 (LoggedIn true token "You are successfully logged in!")
  | Unauthorized => ResEnd 401 "Unauthorized"
  | AuthnError e => NextErr e
  end.

End Routes.

(** ** Logout *)

(** The names in scope in the else branch of the logout handler: the
    module's constants, the handler's parameters and the local [err]. *)
Inductive Binding :=
| ModuleConst
| Param
| LocalErr (e : JsError).

Definition logout_scope (err : JsError) : gmap string Binding :=
  <["err" := LocalErr err]>
    (<["req" := Param]> (<["res" := Param]> (<["next" := Param]>
    (<["express" := ModuleConst]> (<["User" := ModuleConst]>
    (<["passport" := ModuleConst]> (<["authenticate" := ModuleConst]>
    (<["router" := ModuleConst]> ∅)))))))).

(** What [next] receives when it is given one of the other bound values:
    Express takes any argument for an error; it has no status. *)
Definition non_error : JsError := mkError "" "" None.

(** [return next(ident)]: an identifier that is not bound raises a
    ReferenceError before [next] is called. *)
Definition next_ident (scope : gmap string Binding) (ident : string) : Outcome Body :=
  match scope !! ident with
  | Some (LocalErr e) => NextErr e
  | Some _ => NextErr non_error
  | None => Thrown (ReferenceError (ident +:+ " is not defined"))
  end.

(** [router.get('/logout', ...)]: [sessions] is the session store and
    [req_session] the id of the request's session, if it has one. *)
Definition logout (sessions : gset string) (req_session : option string)
  : gset string * Outcome Body :=
  match req_session with
  | Some sid =>
      let sessions := sessions ∖ {[sid]} in        (* req.session.destroy() *)
      (sessions, ResRedirect ["session-id"] "/")
  | None =>
      let err := Error "You are not logged in!" in
      let err := with_status err 401 in
      (sessions, next_ident (logout_scope err) "Err")
  end.

End Users.

(** * routes/campsiteRouter.js *)
Module CampsiteRouter.
Import Authenticate.

(** ** models/campsite: the fields the router reads and writes *)

Record Comment := mkComment {
  comment_id : ObjectId;
  rating : option JsValue;
  text : option JsValue;
  author : option ObjectId
}.

Record Campsite := mkCampsite {
  campsite_id : ObjectId;
  fields : JsObject;
  comments : list Comment
}.

(** A value stored in an ObjectId path. *)
Definition as_id (v : option JsValue) : option ObjectId :=
  match v with
  | Some (JId o) => Some o
  | Some (JStr s) => Some s
  | _ => None
  end.

(** [campsite.comments.push(obj)]: the object becomes a comment
    subdocument with the id [oid] drawn for it. *)
Definition push (campsite : Campsite) (oid : ObjectId) (obj : JsObject) : Campsite :=
  mkCampsite (campsite_id campsite) (fields campsite)
    (comments campsite ++
       [mkComment oid (obj !! "rating") (obj !! "text") (as_id (obj !! "author"))]).

(** [campsite.comments.id(id)] *)
Definition comments_id (campsite : Campsite) (i : ObjectId) : option Comment :=
  List.find (fun c => String.eqb (comment_id c) i) (comments campsite).

(** [.populate('comments.author')]: each comment with its author's document. *)
Definition populate_comment (users : list User) (c : Comment) : Comment * option User :=
  (c, author c ≫= fun a => List.find (fun u => String.eqb (_id u) a) users).

Definition populate (users : list User) (campsite : Campsite)
  : Campsite * list (option User) :=
  (campsite, map (fun c => snd (populate_comment users c)) (comments campsite)).

Inductive Body :=
| Campsites (l : list (Campsite * list (option User)))
| Populated (c : option (Campsite * list (option User)))
| Document (c : Campsite)
| DocumentOrNull (c : option Campsite)
| Comments (l : list (Comment * option User))
| OneComment (c : Comment * option User)
| Deleted (deletedCount : nat).

(** ** The request *)

Record Request := mkRequest {
  authorization : option Token;     (* Authorization: Bearer <token> *)
  campsiteId : ObjectId;            (* req.params.campsiteId *)
  commentId : ObjectId;             (* req.params.commentId *)
  body : JsObject;                  (* req.body *)
  now : Z;                          (* the clock when the request arrives *)
  oid : ObjectId                    (* the id drawn for a document it creates *)
}.

Definition State := list Campsite.
Definition Result : Type := State * Outcome Body.

Definition not_found (what : string) (i : ObjectId) : JsError :=
  with_status (Error (what +:+ " " +:+ i +:+ " not found")) 404.

Definition null_property (prop : string) (target : string) : JsError :=
  TypeError ("Cannot read property '" +:+ prop +:+ "' of " +:+ target).

Section Handlers.
Variable accepts : list Campsite -> Campsite -> bool.
Variable users : list User.

(** [campsiteRouter.route('/')] *)

Definition root_get (req : Request) (campsites : State) : Result :=
  (campsites, ResJson 200 (Campsites (map (populate users) campsites))).

Definition root_post (req : Request) (campsites : State) : Result :=
  match create accepts campsites (mkCampsite (oid req) (body req) []) with
  | Resolved (campsites, campsite) => (campsites, ResJson 200 (Document campsite))
  | Rejected err => (campsites, NextErr err)
  end.

Definition root_put (req : Request) (campsites : State) : Result :=
  (campsites, ResEnd 403 "PUT operation not supported on /campsites").

Definition root_delete (req : Request) (campsites : State) : Result :=
  ([], ResJson 200 (Deleted (length campsites))).

(** [campsiteRouter.route('/:campsiteId')] *)

Definition campsite_get (req : Request) (campsites : State) : Result :=
  match findById campsite_id campsites (campsiteId req) with
  | Resolved campsite => (campsites, ResJson 200 (Populated (populate users <$> campsite)))
  | Rejected err => (campsites, NextErr err)
  end.

Definition campsite_post (req : Request) (campsites : State) : Result :=
  (campsites,
   ResEnd 403 ("POST operation not supported on /campsites/" +:+ campsiteId req)).

Definition campsite_put (req : Request) (campsites : State) : Result :=
  match findById campsite_id campsites (campsiteId req) with
  | Resolved (Some campsite) =>
      let campsite := mkCampsite (campsite_id campsite) (body req ∪ fields campsite)
                        (comments campsite) in
      (replace campsite_id campsites campsite, ResJson 200 (DocumentOrNull (Some campsite)))
  | Resolved None => (campsites, ResJson 200 (DocumentOrNull None))
  | Rejected err => (campsites, NextErr err)
  end.

Definition campsite_delete (req : Request) (campsites : State) : Result :=
  match findById campsite_id campsites (campsiteId req) with
  | Resolved response =>
      (remove_id campsite_id campsites (campsiteId req),
       ResJson 200 (DocumentOrNull response))
  | Rejected err => (campsites, NextErr err)
  end.

(** [campsiteRouter.route('/:campsiteId/comments')] *)

Definition comments_get (req : Request) (campsites : State) : Result :=
  match findById campsite_id campsites (campsiteId req) with
  | Resolved (Some campsite) =>
      (campsites,
       ResJson 200 (Comments (map (populate_comment users) (comments campsite))))
  | Resolved None => (campsites, NextErr (not_found "Campsite" (campsiteId req)))
  | Rejected err => (campsites, NextErr err)
  end.

Definition comments_post (req : Request) (req_user : User) (campsites : State)
  : Result :=
  match findById campsite_id campsites (campsiteId req) with
  | Resolved (Some campsite) =>
      let req_body := <["author" := JId (_id req_user)]> (body req) in
      let campsite := push campsite (oid req) req_body in
      match save campsite_id accepts campsites campsite with
      | Resolved (campsites, campsite) => (campsites, ResJson 200 (Document campsite))
      | Rejected err => (campsites, NextErr err)
      end
  | Resolved None => (campsites, NextErr (not_found "Campsite" (campsiteId req)))
  | Rejected err => (campsites, NextErr err)
  end.

Definition comments_put (req : Request) (campsites : State) : Result :=
  (campsites,
   ResEnd 403 ("PUT operation not supported on /campsites/" +:+ campsiteId req
               +:+ "/comments")).

(** [for (let i = comments.length - 1; i >= 0; i--)
       comments.id(comments[i]._id).remove()], with [n = i + 1]. *)
Fixpoint remove_each (n : nat) (cs : list Comment) : Query (list Comment) :=
  match n with
  | 0 => Resolved cs
  | S i =>
      match cs !! i with
      | Some c => remove_each i (remove_id comment_id cs (comment_id c))
      | None => Rejected (null_property "_id" "undefined")
      end
  end.

Definition comments_delete (req : Request) (campsites : State) : Result :=
  match findById campsite_id campsites (campsiteId req) with
  | Resolved (Some campsite) =>
      match remove_each (length (comments campsite)) (comments campsite) with
      | Rejected err => (campsites, NextErr err)
      | Resolved cs =>
          let campsite := mkCampsite (campsite_id campsite) (fields campsite) cs in
          match save campsite_id accepts campsites campsite with
          | Resolved (campsites, campsite) =>
              (campsites, ResJson 200 (Document campsite))
          | Rejected err => (campsites, NextErr err)
          end
      end
  | Resolved None => (campsites, NextErr (not_found "Campsite" (campsiteId req)))
  | Rejected err => (campsites, NextErr err)
  end.

(** [campsiteRouter.route('/:campsiteId/comments/:commentId')] *)

Definition comment_get (req : Request) (campsites : State) : Result :=
  match findById campsite_id campsites (campsiteId req) with
  | Resolved campsite =>
      match campsite, campsite ≫= fun c => comments_id c (commentId req) with
      | Some _, Some comment =>
          (campsites, ResJson 200 (OneComment (populate_comment users comment)))
      | None, _ => (campsites, NextErr (not_found "Campsite" (campsiteId req)))
      | Some _, None => (campsites, NextErr (not_found "Comment" (commentId req)))
      end
  | Rejected err => (campsites, NextErr err)
  end.

Definition comment_post (req : Request) (campsites : State) : Result :=
  (campsites,
   ResEnd 403 ("POST operation not supported on /campsites/" +:+ campsiteId req
               +:+ "/comments/" +:+ commentId req)).

Definition forbidden_comment : JsError :=
  with_status (Error "You are not authorized to delete this comment!") 403.

Definition comment_put (req : Request) (req_user : User) (campsites : State)
  : Result :=
  match findById campsite_id campsites (campsiteId req) with
  | Resolved campsite =>
      match campsite, campsite ≫= fun c => comments_id c (commentId req) with
      | Some campsite, Some comment_from_database =>
          let author_id_from_request := _id req_user in
          match author comment_from_database with
          | None => (campsites, NextErr (null_property "_id" "undefined"))
          | Some author_id_from_comment_from_database =>
              if String.eqb author_id_from_request author_id_from_comment_from_database
              then
                let comment := comment_from_database in
                let comment :=
                  if truthy (body req !! "rating")
                  then mkComment (comment_id comment) (body req !! "rating")
                         (text comment) (author comment)
                  else comment in
                let comment :=
                  if truthy (body req !! "text")
                  then mkComment (comment_id comment) (rating comment)
                         (body req !! "text") (author comment)
                  else comment in
                let campsite :=
                  mkCampsite (campsite_id campsite) (fields campsite)
                    (replace comment_id (comments campsite) comment) in
                match save campsite_id accepts campsites campsite with
                | Resolved (campsites, campsite) =>
                    (campsites, ResJson 200 (Document campsite))
                | Rejected err => (campsites, NextErr err)
                end
              else (campsites, NextErr forbidden_comment)
          end
      | None, _ => (campsites, NextErr (not_found "Campsite" (campsiteId req)))
      | Some _, None => (campsites, NextErr (not_found "Comment" (commentId req)))
      end
  | Rejected err => (campsites, NextErr err)
  end.

(** The reads [campsite.comments], [comment_from_database.author] and
    [author._id] come before any test: on [null] or [undefined] they throw
    inside the [then] callback, and the [catch] hands the TypeError to
    [next]. *)
Definition comment_delete (req : Request) (req_user : User) (campsites : State)
  : Result :=
  match findById campsite_id campsites (campsiteId req) with
  | Resolved campsite =>
      let author_id_from_request := _id req_user in
      match campsite with
      | None => (campsites, NextErr (null_property "comments" "null"))
      | Some the_campsite =>
          match comments_id the_campsite (commentId req) with
          | None => (campsites, NextErr (null_property "author" "null"))
          | Some comment_from_database =>
              match author comment_from_database with
              | None => (campsites, NextErr (null_property "_id" "undefined"))
              | Some author_id_from_comment_from_database =>
                  if String.eqb author_id_from_request
                       author_id_from_comment_from_database
                     || admin req_user
                  then
                    if bool_decide (is_Some campsite)
                       && bool_decide (is_Some (comments_id the_campsite (commentId req)))
                    then
                      let campsite :=
                        mkCampsite (campsite_id the_campsite) (fields the_campsite)
                          (remove_id comment_id (comments the_campsite) (commentId req)) in
                      match save campsite_id accepts campsites campsite with
                      | Resolved (campsites, campsite) =>
                          (campsites, ResJson 200 (Document campsite))
                      | Rejected err => (campsites, NextErr err)
                      end
                    else (campsites, NextErr forbidden_comment)
                  else if negb (bool_decide (is_Some campsite))
                  then (campsites, NextErr (not_found "Campsite" (campsiteId req)))
                  else (campsites, NextErr (not_found "Comment" (commentId req)))
              end
          end
      end
  | Rejected err => (campsites, NextErr err)
  end.

(** ** The routes *)

Inductive Path :=
| Root             (* '/' *)
| CampsitePath     (* '/:campsiteId' *)
| CommentsPath     (* '/:campsiteId/comments' *)
| CommentPath.     (* '/:campsiteId/comments/:commentId' *)

Inductive Method := GET | POST | PUT | DELETE.

Inductive Middleware := VerifyUser | VerifyAdmin.

(** The middleware each route lists before its handler. *)
Definition middleware (p : Path) (m : Method) : list Middleware :=
  match p, m with
  | Root, GET => []
  | Root, POST => [VerifyUser; VerifyAdmin]
  | Root, PUT => [VerifyUser]
  | Root, DELETE => [VerifyUser; VerifyAdmin]
  | CampsitePath, GET => []
  | CampsitePath, POST => [VerifyUser]
  | CampsitePath, PUT => [VerifyUser; VerifyAdmin]
  | CampsitePath, DELETE => [VerifyUser; VerifyAdmin]
  | CommentsPath, GET => []
  | CommentsPath, POST => [VerifyUser]
  | CommentsPath, PUT => [VerifyUser]
  | CommentsPath, DELETE => [VerifyUser; VerifyAdmin]
  | CommentPath, GET => []
  | CommentPath, POST => [VerifyUser]
  | CommentPath, PUT => [VerifyUser]
  | CommentPath, DELETE => [VerifyUser]
  end.

(** A handler either ignores [req.user] or reads it. *)
Inductive Handler :=
| Plain (h : Request -> State -> Result)
| WithUser (h : Request -> User -> State -> Result).

Definition handler (p : Path) (m : Method) : Handler :=
  match p, m with
  | Root, GET => Plain root_get
  | Root, POST => Plain root_post
  | Root, PUT => Plain root_put
  | Root, DELETE => Plain root_delete
  | CampsitePath, GET => Plain campsite_get
  | CampsitePath, POST => Plain campsite_post
  | CampsitePath, PUT => Plain campsite_put
  | CampsitePath, DELETE => Plain campsite_delete
  | CommentsPath, GET => Plain comments_get
  | CommentsPath, POST => WithUser comments_post
  | CommentsPath, PUT => Plain comments_put
  | CommentsPath, DELETE => Plain comments_delete
  | CommentPath, GET => Plain comment_get
  | CommentPath, POST => Plain comment_post
  | CommentPath, PUT => WithUser comment_put
  | CommentPath, DELETE => WithUser comment_delete
  end.

(** The handler of a route on a request that [user] makes. *)
Definition handle (p : Path) (m : Method) (req : Request) (user : User)
  (campsites : State) : Result :=
  match handler p m with
  | Plain h => h req campsites
  | WithUser h => h req user campsites
  end.

Variable hmac : string -> Payload -> string.
Variable secretKey : string.

(** Run the middleware in order: the request's user so far, or the outcome
    that ends the request before the handler. *)
Fixpoint run (mws : list Middleware) (req : Request) (req_user : option User)
  : Outcome Body + option User :=
  match mws with
  | [] => inr req_user
  | VerifyUser :: rest =>
      match verifyUser hmac secretKey users (now req) (authorization req) with
      | Authenticated user => run rest req (Some user)
      | Unauthorized => inl (ResEnd 401 "Unauthorized")
      | AuthnError e => inl (NextErr e)
      end
  | VerifyAdmin :: rest =>
      match req_user with
      | None => inl (Thrown (null_property "admin" "undefined"))
      | Some user =>
          match verifyAdmin user with
          | NextOk => run rest req req_user
          | o => inl o
          end
      end
  end.

Definition campsiteRouter (p : Path) (m : Method) (req : Request) (campsites : State)
  : Result :=
  match run (middleware p m) req None with
  | inl o => (campsites, o)
  | inr req_user =>
      match handler p m, req_user with
      | Plain h, _ => h req campsites
      | WithUser h, Some user => h req user campsites
      | WithUser h, None => (campsites, NextErr (null_property "_id" "undefined"))
      end
  end.

End Handlers.
End CampsiteRouter.

(** * routes/favoriteRouter.js: the two routes that add favorites *)
Module FavoriteRouter.

(** models/favorite: one document per user, with the list of campsite ids. *)
Record Favorite := mkFavorite {
  favorite_id : ObjectId;
  user : ObjectId;
  campsites : list ObjectId
}.

(** An element of the array [POST /favorites] receives: [{ "_id": .. }]. *)
Record FavCampsite := mkFavCampsite { fav_id : ObjectId }.

Inductive Body := Document (favorite : Favorite).

Definition State := list Favorite.
Definition Result : Type := State * Outcome Body.

(** [array.includes(id)] *)
Definition includes (l : list ObjectId) (i : ObjectId) : bool :=
  existsb (String.eqb i) l.

Section Handlers.
Variable accepts : list Favorite -> Favorite -> bool.

(** [req.body.forEach(favCampsite => { if (!includes) push })] *)
Definition push_each (campsites : list ObjectId) (req_body : list FavCampsite)
  : list ObjectId :=
  fold_left
    (fun campsites favCampsite =>
       if negb (includes campsites (fav_id favCampsite))
       then campsites ++ [fav_id favCampsite]
       else campsites)
    req_body campsites.

(** [favoriteRouter.route('/').post(...)], after [verifyUser].  The outer
    promise has no [catch]: a rejection of [findOne] is left unhandled. *)
Definition favorites_post (req_body : list FavCampsite) (req_user : User)
  (oid : ObjectId) (favorites : State) : Result :=
  match findOne (fun f => String.eqb (user f) (_id req_user)) favorites with
  | Resolved (Some favorite) =>
      let favorite := mkFavorite (favorite_id favorite) (user favorite)
                        (push_each (campsites favorite) req_body) in
      match save favorite_id accepts favorites favorite with
      | Resolved (favorites, favorite) => (favorites, ResJson 200 (Document favorite))
      | Rejected err => (favorites, NextErr err)
      end
  | Resolved None =>
      match create accepts favorites
              (mkFavorite oid (_id req_user) (map fav_id req_body)) with
      | Resolved (favorites, favorite) => (favorites, ResJson 200 (Document favorite))
      | Rejected err => (favorites, NextErr err)
      end
  | Rejected err => (favorites, Thrown err)
  end.

(** [favoriteRouter.route('/:campsiteId').post(...)], after [verifyUser]. *)
Definition favorite_post (campsiteId : ObjectId) (req_user : User)
  (oid : ObjectId) (favorites : State) : Result :=
  match findOne (fun f => String.eqb (user f) (_id req_user)) favorites with
  | Resolved (Some favorite) =>
      if negb (includes (campsites favorite) campsiteId) then
        let favorite := mkFavorite (favorite_id favorite) (user favorite)
                          (campsites favorite ++ [campsiteId]) in
        match save favorite_id accepts favorites favorite with
        | Resolved (favorites, favorite) =>
            (favorites, ResJson 200 (Document favorite))
        | Rejected err => (favorites, NextErr err)
        end
      else (favorites, ResEnd 200 "That campsite is already a favorite!")
  | Resolved None =>
      match create accepts favorites
              (mkFavorite oid (_id req_user) [campsiteId]) with
      | Resolved (favorites, favorite) => (favorites, ResJson 200 (Document favorite))
      | Rejected err => (favorites, NextErr err)
      end
  | Rejected err => (favorites, NextErr err)
  end.

(** [favoriteRouter.route('/').put(...)], after [verifyUser]. *)
Definition favorites_put (favorites : State) : Result :=
  (favorites, ResEnd 403 "PUT operation is not supported on /favorites").

(** [favoriteRouter.route('/').delete(...)], after [verifyUser]:
    [favorite.remove()] takes the document out of the collection and
    resolves with it. *)
Definition favorites_delete (req_user : User) (favorites : State) : Result :=
  match findOne (fun f => String.eqb (user f) (_id req_user)) favorites with
  | Resolved (Some favorite) =>
      (remove_id favorite_id favorites (favorite_id favorite),
       ResJson 200 (Document favorite))
  | Resolved None =>
      (favorites, ResEnd 404 "You do not have any favorites to delete.")
  | Rejected err => (favorites, NextErr err)
  end.

(** [favoriteRouter.route('/:campsiteId').get(...)], after [verifyUser]. *)
Definition favorite_get (campsiteId : ObjectId) (favorites : State) : Result :=
  (favorites,
   ResEnd 403 ("GET operation is not supported on /favorites/" +:+ campsiteId)).

(** Every user has at most one document, and ids are not shared. *)
Definition one_per_user (favorites : State) : Prop :=
  List.NoDup (map user favorites) /\ List.NoDup (map favorite_id favorites).

(** No document lists a campsite twice. *)
Definition no_duplicates (favorites : State) : Prop :=
  Forall (fun f => List.NoDup (campsites f)) favorites.

(** A request that adds favorites, and a sequence of them by one user. *)
Inductive Add :=
| AddList (req_body : list FavCampsite) (oid : ObjectId)
| AddOne (campsiteId : ObjectId) (oid : ObjectId).

Definition add (req_user : User) (favorites : State) (a : Add) : State :=
  match a with
  | AddList req_body oid => fst (favorites_post req_body req_user oid favorites)
  | AddOne campsiteId oid => fst (favorite_post campsiteId req_user oid favorites)
  end.

Definition add_all (req_user : User) (favorites : State) (l : list Add) : State :=
  fold_left (add req_user) l favorites.

(** The id drawn for the document a request may create. *)
Definition add_oid (a : Add) : ObjectId :=
  match a with
  | AddList _ oid => oid
  | AddOne _ oid => oid
  end.

End Handlers.
End FavoriteRouter.

(** * What a user's request may not touch *)

(** Whether a comment was written by the user with id [uid]. *)
Definition written_by (uid : ObjectId) (c : CampsiteRouter.Comment) : bool :=
  match CampsiteRouter.author c with
  | Some a => String.eqb a uid
  | None => false
  end.

(** A campsite as far as the user [uid] has no say in it: its id, its
    fields and the comments of everybody else. *)
Definition beyond (uid : ObjectId) (c : CampsiteRouter.Campsite)
  : ObjectId * JsObject * list CampsiteRouter.Comment :=
  (CampsiteRouter.campsite_id c, CampsiteRouter.fields c,
   List.filter (fun k => negb (written_by uid k)) (CampsiteRouter.comments c)).

(** * Concrete data for the examples *)

(** A signature function: the key followed by the signed user id. *)
Definition example_hmac (secret : string) (p : Authenticate.Payload) : string :=
  secret +:+ ":" +:+ Authenticate.jwt_id p.

(** A key-derivation function: the salt followed by the password. *)
Definition example_kdf (password new_salt : string) : string :=
  new_salt +:+ "$" +:+ password.

(** A store that accepts every document. *)
Definition accept_all {A} (c : list A) (d : A) : bool := true.

(** alice is an ordinary user, bob and carol are too; dave is an admin. *)
Definition alice : User := mkUser "a1" "alice" None None None false "s" "h".
Definition carol : User := mkUser "c3" "carol" None None None false "s" "h".
Definition dave : User := mkUser "d4" "dave" None None None true "s" "h".

Definition example_users : list User := [alice; carol; dave].

(** The bearer token of a user, issued at time 1000 under the key "key". *)
Definition token_of (u : User) : Authenticate.Token :=
  Authenticate.getToken example_hmac "key" (_id u) 1000.

(** One campsite with one comment, written by alice. *)
Definition example_comment : CampsiteRouter.Comment :=
  CampsiteRouter.mkComment "k1" (Some (JNum 5)) (Some (JStr "Nice")) (Some "a1").

Definition example_campsite : CampsiteRouter.Campsite :=
  CampsiteRouter.mkCampsite "s1" ∅ [example_comment].

Definition example_request (u : User) (req_body : JsObject) : CampsiteRouter.Request :=
  CampsiteRouter.mkRequest (Some (token_of u)) "s1" "k1" req_body 2000 "k2".

Definition example_profile : Authenticate.Profile :=
  Authenticate.mkProfile "fb-77" "Erin E" (Authenticate.mkName (Some "Erin") (Some "E")).

(** alice's favorites document, with one campsite. *)
Definition example_favorites : list FavoriteRouter.Favorite :=
  [FavoriteRouter.mkFavorite "f1" "a1" ["s1"]].

(** erin signs up with a first name and an empty last name. *)
Definition erin_body : Users.Credentials :=
  Users.mkCredentials "erin" "pw" (Some "Erin") (Some "").

Definition users_with_erin : list User :=
  fst (Users.signup example_kdf accept_all example_users erin_body "e5" "salt5").

(** Modelled from the spec: the User schema ([models/user]) is not in the
    sources.  Per the spec the username is unique: this store refuses a
    document whose username another stored user already has. *)
Definition unique_usernames (users : list User) (u : User) : bool :=
  negb (existsb (fun x => String.eqb (username x) (username u)
                          && negb (String.eqb (_id x) (_id u))) users).

(** A collection in which a local user already goes by the display name
    of the example profile. *)
Definition local_erin : list User :=
  [mkUser "x9" "Erin E" None None None false "s" "h"].

(** A user who joins later. *)
Definition zed : User := mkUser "z9" "zed" (Some "fb-99") None None false "s" "h".

(** The error [verifyAdmin] hands to [next], written out. *)
Definition not_authorized : JsError :=
  mkError "Error" "You are not authorized to perform this operation!" (Some 403).

(** * Properties *)

(** ** Queries on collections *)

Lemma find_none_iff {A} (f : A -> bool) (l : list A) :
  List.find f l = None <-> (forall x, In x l -> f x = false).
Proof.
  split.
  - intros H x Hx. exact (find_none f l H x Hx).
  - induction l as [|y l IH]; simpl; intros H; [reflexivity|].
    rewrite (H y (or_introl eq_refl)). apply IH. intros x Hx. apply H. now right.
Qed.

Lemma find_app_last {A} (f : A -> bool) (l : list A) (x : A) :
  List.find f l = None -> f x = true -> List.find f (l ++ [x]) = Some x.
Proof.
  induction l as [|y l IH]; simpl; intros Hn Hx.
  - now rewrite Hx.
  - destruct (f y); [discriminate|]. now apply IH.
Qed.

Lemma find_satisfies {A} (f : A -> bool) (l : list A) (x : A) :
  List.find f l = Some x -> f x = true.
Proof. intros H. now destruct (find_some f l H). Qed.

(** ** authenticate.js *)

Section TokenFacts.
Variable hmac : string -> Authenticate.Payload -> string.
Variable secretKey : string.

Import Authenticate.

Lemma getToken_signed (user_id : ObjectId) (T : Z) :
  String.eqb (signature (getToken hmac secretKey user_id T))
    (hmac (opts_secretOrKey secretKey) (payload (getToken hmac secretKey user_id T)))
  = true.
Proof. unfold getToken, jwt_sign, opts_secretOrKey. simpl. apply String.eqb_refl. Qed.

Lemma getToken_payload (user_id : ObjectId) (T : Z) :
  payload (getToken hmac secretKey user_id T) = mkPayload user_id T (T + 3600).
Proof. reflexivity. Qed.

Lemma jwt_verify_getToken (user_id : ObjectId) (T t : Z) :
  jwt_verify hmac (getToken hmac secretKey user_id T) (opts_secretOrKey secretKey) t
  = if (T + 3600 <=? t)%Z then inl Expired
    else inr (mkPayload user_id T (T + 3600)).
Proof.
  unfold jwt_verify. rewrite getToken_signed, getToken_payload. reflexivity.
Qed.

Lemma verifyUser_never_errors (users : list User) (now : Z) (a : option Token) :
  (exists user, verifyUser hmac secretKey users now a = Authenticated user)
  \/ verifyUser hmac secretKey users now a = Unauthorized.
Proof.
  unfold verifyUser. destruct a as [token|]; [|now right].
  destruct (jwt_verify _ _ _ _) as [e|p]; [now right|].
  unfold jwtPassport, findOne. destruct (List.find _ users) as [u|]; simpl.
  - left. now exists u.
  - now right.
Qed.

End TokenFacts.

(** C2: a token that [getToken] issues for a user id at time [T] verifies,
    under the configured key, at every time [t] with [T <= t < T + 3600] and
    yields the payload with that user id, so that [verifyUser] resolves the
    user with that id whenever the collection holds one; at every time
    [t >= T + 3600] verification fails with [Expired] and [verifyUser]
    answers 401. *)
Theorem token_lifetime :
  forall (hmac : string -> Authenticate.Payload -> string) (secretKey : string)
         (user_id : ObjectId) (T t : Z),
    let token := Authenticate.getToken hmac secretKey user_id T in
    ((T <= t < T + 3600)%Z ->
       (exists p, Authenticate.jwt_verify hmac token
                    (Authenticate.opts_secretOrKey secretKey) t = inr p
                  /\ Authenticate.jwt_id p = user_id)
       /\ forall users user,
            List.find (fun u => String.eqb (_id u) user_id) users = Some user ->
            Authenticate.verifyUser hmac secretKey users t (Some token)
            = Authenticate.Authenticated user)
    /\ ((T + 3600 <= t)%Z ->
          Authenticate.jwt_verify hmac token
            (Authenticate.opts_secretOrKey secretKey) t = inl Authenticate.Expired
          /\ forall users,
               Authenticate.verifyUser hmac secretKey users t (Some token)
               = Authenticate.Unauthorized).
Proof.
  intros hmac secretKey user_id T t token. subst token. split.
  - intros [_ Hlt].
    assert (Hv : Authenticate.jwt_verify hmac
                   (Authenticate.getToken hmac secretKey user_id T)
                   (Authenticate.opts_secretOrKey secretKey) t
                 = inr (Authenticate.mkPayload user_id T (T + 3600))).
    { rewrite jwt_verify_getToken.
      destruct (Z.leb_spec (T + 3600) t) as [Hle|_]; [lia|reflexivity]. }
    split.
    + eexists. split; [exact Hv|reflexivity].
    + intros users user Hfind. unfold Authenticate.verifyUser.
      rewrite Hv. unfold Authenticate.jwtPassport, findOne. simpl.
      now rewrite Hfind.
  - intros Hge.
    assert (Hv : Authenticate.jwt_verify hmac
                   (Authenticate.getToken hmac secretKey user_id T)
                   (Authenticate.opts_secretOrKey secretKey) t
                 = inl Authenticate.Expired).
    { rewrite jwt_verify_getToken.
      destruct (Z.leb_spec (T + 3600) t) as [_|Hlt]; [reflexivity|lia]. }
    split; [exact Hv|].
    intros users. unfold Authenticate.verifyUser. now rewrite Hv.
Qed.

Lemma token_lifetime_witness :
  (exists p, Authenticate.jwt_verify example_hmac
               (Authenticate.getToken example_hmac "key" "a1" 1000)
               (Authenticate.opts_secretOrKey "key") 4599 = inr p
             /\ Authenticate.jwt_id p = "a1")
  /\ Authenticate.jwt_verify example_hmac
       (Authenticate.getToken example_hmac "key" "a1" 1000)
       (Authenticate.opts_secretOrKey "key") 4600 = inl Authenticate.Expired.
Proof.
  split.
  - apply (proj1 (token_lifetime example_hmac "key" "a1" 1000 4599)). lia.
  - apply (proj2 (token_lifetime example_hmac "key" "a1" 1000 4600)). lia.
Defined.

(** C7: a token whose signature is not the one the configured key gives its
    payload fails verification with [InvalidSignature], whatever its payload
    and whatever the time; [verifyUser] then answers 401 and resolves no
    user. *)
Theorem tampered_signature_rejected :
  forall (hmac : string -> Authenticate.Payload -> string) (secretKey : string)
         (token : Authenticate.Token) (now : Z),
    Authenticate.signature token <> hmac secretKey (Authenticate.payload token) ->
    Authenticate.jwt_verify hmac token (Authenticate.opts_secretOrKey secretKey) now
    = inl Authenticate.InvalidSignature
    /\ forall users,
         Authenticate.verifyUser hmac secretKey users now (Some token)
         = Authenticate.Unauthorized.
Proof.
  intros hmac secretKey token now Hsig.
  assert (Hv : Authenticate.jwt_verify hmac token
                 (Authenticate.opts_secretOrKey secretKey) now
               = inl Authenticate.InvalidSignature).
  { unfold Authenticate.jwt_verify, Authenticate.opts_secretOrKey.
    apply String.eqb_neq in Hsig. now rewrite Hsig. }
  split; [exact Hv|].
  intros users. unfold Authenticate.verifyUser. now rewrite Hv.
Qed.

Lemma tampered_signature_rejected_witness :
  Authenticate.verifyUser example_hmac "key" example_users 2000
    (Some (Authenticate.mkToken (Authenticate.mkPayload "d4" 1000 4600) "forged"))
  = Authenticate.Unauthorized.
Proof.
  apply (tampered_signature_rejected example_hmac "key"
           (Authenticate.mkToken (Authenticate.mkPayload "d4" 1000 4600) "forged") 2000).
  vm_compute. discriminate.
Defined.

(** The same payload under the right signature does resolve the user: the
    rejection above is due to the signature alone. *)
Example well_signed_token_accepted :
  Authenticate.verifyUser example_hmac "key" example_users 2000
    (Some (Authenticate.mkToken (Authenticate.mkPayload "d4" 1000 4600) "key:d4"))
  = Authenticate.Authenticated dave.
Proof. reflexivity. Qed.

(** ** The admin gate *)

Lemma verifyAdmin_spec (B : Type) (user : User) :
  @Authenticate.verifyAdmin B user
  = if admin user then NextOk else NextErr not_authorized.
Proof. reflexivity. Qed.

(** C5: on every route of the campsite router that lists [verifyAdmin], and
    on the users listing, a request of an authenticated user whose admin
    flag is false ends in [next(err)] with status 403 and the message "You
    are not authorized to perform this operation!", the collection
    untouched; with the admin flag true the request reaches the route's
    handler. *)
Theorem admin_gate :
  forall accepts users hmac secretKey p m req campsites user,
    In CampsiteRouter.VerifyAdmin (CampsiteRouter.middleware p m) ->
    Authenticate.verifyUser hmac secretKey users (CampsiteRouter.now req)
      (CampsiteRouter.authorization req) = Authenticate.Authenticated user ->
    (admin user = false ->
       CampsiteRouter.campsiteRouter accepts users hmac secretKey p m req campsites
       = (campsites, NextErr not_authorized)
       /\ Users.users_get hmac secretKey users (CampsiteRouter.now req)
            (CampsiteRouter.authorization req) = NextErr not_authorized)
    /\ (admin user = true ->
          CampsiteRouter.campsiteRouter accepts users hmac secretKey p m req campsites
          = CampsiteRouter.handle accepts users p m req user campsites
          /\ Users.users_get hmac secretKey users (CampsiteRouter.now req)
               (CampsiteRouter.authorization req)
             = ResEnd 200 "respond with a resource").
Proof.
  intros accepts users hmac secretKey p m req campsites user Hin Hauth.
  split; intros Hadmin; split.
  all: try (unfold Users.users_get; rewrite Hauth, verifyAdmin_spec, Hadmin;
            reflexivity).
  all: unfold CampsiteRouter.campsiteRouter, CampsiteRouter.handle.
  all: destruct p, m; simpl in Hin;
         try (exfalso; intuition discriminate).
  all: cbn [CampsiteRouter.middleware CampsiteRouter.run]; rewrite Hauth.
  all: rewrite verifyAdmin_spec, Hadmin; reflexivity.
Qed.

Lemma admin_gate_witness :
  CampsiteRouter.campsiteRouter accept_all example_users example_hmac "key"
    CampsiteRouter.Root CampsiteRouter.DELETE (example_request carol ∅)
    [example_campsite]
  = ([example_campsite], NextErr not_authorized)
  /\ CampsiteRouter.campsiteRouter accept_all example_users example_hmac "key"
       CampsiteRouter.Root CampsiteRouter.DELETE (example_request dave ∅)
       [example_campsite]
     = ([], ResJson 200 (CampsiteRouter.Deleted 1)).
Proof.
  split.
  - apply (proj1 (admin_gate accept_all example_users example_hmac "key"
                    CampsiteRouter.Root CampsiteRouter.DELETE
                    (example_request carol ∅) [example_campsite] carol
                    ltac:(simpl; tauto) eq_refl)).
    reflexivity.
  - rewrite (proj1 (proj2 (admin_gate accept_all example_users example_hmac "key"
                             CampsiteRouter.Root CampsiteRouter.DELETE
                             (example_request dave ∅) [example_campsite] dave
                             ltac:(simpl; tauto) eq_refl) eq_refl)).
    reflexivity.
Defined.

(** ** Facebook login *)

Lemma facebook_filter_none (users : list User) (fid : string) :
  (forall u, In u users -> facebookId u <> Some fid) ->
  List.find (fun u => bool_decide (facebookId u = Some fid)) users = None.
Proof.
  intros H. apply find_none_iff. intros u Hu.
  apply bool_decide_eq_false. now apply H.
Qed.

Lemma find_app_first {A} (f : A -> bool) (l r : list A) (x : A) :
  List.find f l = Some x -> List.find f (l ++ r) = Some x.
Proof.
  induction l as [|y l IH]; simpl; [discriminate|].
  destruct (f y); [trivial|exact IH].
Qed.

(** C3: when no user carries the external id of the profile, the Facebook
    login does one of two things.  If the store accepts the new document,
    it adds exactly one user at the end of the collection, whose username
    is the profile's display name, whose external id is the profile's id
    and whose first and last name are the profile's given and family name,
    and resolves to it; a later login with the same external id, whatever
    users were stored in between, resolves to that same user and leaves the
    collection as it is.  If the store refuses the new document, the login
    reports the store's error and the collection is as it was. *)
Theorem facebook_login_creates_once :
  forall accepts users oid (profile : Authenticate.Profile),
    (forall u, In u users -> facebookId u <> Some (Authenticate.id profile)) ->
    let user :=
      mkUser oid (Authenticate.displayName profile) (Some (Authenticate.id profile))
        (Authenticate.givenName (Authenticate.name profile))
        (Authenticate.familyName (Authenticate.name profile)) false "" "" in
    (accepts users user = true ->
       Authenticate.facebookPassport accepts users oid profile
       = (users ++ [user], Authenticate.done None (Some user))
       /\ forall accepts' rest oid' (profile' : Authenticate.Profile),
            Authenticate.id profile' = Authenticate.id profile ->
            Authenticate.facebookPassport accepts' (users ++ [user] ++ rest)
              oid' profile'
            = (users ++ [user] ++ rest, Authenticate.done None (Some user)))
    /\ (accepts users user = false ->
          Authenticate.facebookPassport accepts users oid profile
          = (users, Authenticate.done (Some ValidationError) None)).
Proof.
  intros accepts users oid profile Hnew user.
  pose proof (facebook_filter_none users _ Hnew) as Hfind.
  split; intros Hacc.
  - split.
    + unfold Authenticate.facebookPassport, findOne, create.
      rewrite Hfind. simpl. fold user. now rewrite Hacc.
    + intros accepts' rest oid' profile' Hid.
      unfold Authenticate.facebookPassport, findOne. rewrite Hid.
      rewrite app_assoc.
      rewrite (find_app_first _ (users ++ [user]) rest user); [reflexivity|].
      apply find_app_last; [exact Hfind|]. now apply bool_decide_eq_true.
  - unfold Authenticate.facebookPassport, findOne, create.
    rewrite Hfind. simpl. fold user. now rewrite Hacc.
Qed.

Lemma facebook_login_creates_once_witness :
  Authenticate.facebookPassport accept_all example_users "e5" example_profile
  = (example_users ++ [mkUser "e5" "Erin E" (Some "fb-77") (Some "Erin") (Some "E")
                         false "" ""],
     Authenticate.done None
       (Some (mkUser "e5" "Erin E" (Some "fb-77") (Some "Erin") (Some "E") false "" "")))
  /\ Authenticate.facebookPassport unique_usernames
       (example_users
        ++ [mkUser "e5" "Erin E" (Some "fb-77") (Some "Erin") (Some "E") false "" ""]
        ++ [zed])
       "e6" example_profile
     = (example_users
        ++ [mkUser "e5" "Erin E" (Some "fb-77") (Some "Erin") (Some "E") false "" ""]
        ++ [zed],
        Authenticate.done None
          (Some (mkUser "e5" "Erin E" (Some "fb-77") (Some "Erin") (Some "E")
                   false "" ""))).
Proof.
  assert (Hnew : forall u, In u example_users
                           -> facebookId u <> Some (Authenticate.id example_profile)).
  { intros u Hu. simpl in Hu. destruct Hu as [<-|[<-|[<-|[]]]]; discriminate. }
  destruct (proj1 (facebook_login_creates_once accept_all example_users "e5"
                     example_profile Hnew) eq_refl) as [Hfirst Hlater].
  split; [exact Hfirst|].
  apply (Hlater unique_usernames [zed] "e6" example_profile eq_refl).
Defined.

(** The claim without the proviso on the store fails: no stored user
    carries the external id, the display name is taken by a local user, the
    store keeps usernames unique, and the login creates no user at all. *)
Lemma facebook_login_refused_creates_none :
  (forall u, In u local_erin -> facebookId u <> Some (Authenticate.id example_profile))
  /\ Authenticate.facebookPassport unique_usernames local_erin "e5" example_profile
     = (local_erin, Authenticate.done (Some ValidationError) None)
  /\ ~ (exists user,
          fst (Authenticate.facebookPassport unique_usernames local_erin "e5"
                 example_profile)
          = local_erin ++ [user]).
Proof.
  split; [|split].
  - intros u Hu. simpl in Hu. destruct Hu as [<-|[]]. discriminate.
  - reflexivity.
  - intros [user H]. simpl in H. discriminate.
Qed.

(** ** Registration and local login *)

Section LocalFacts.
Variable kdf : string -> string -> string.

Import PassportLocalMongoose.

Lemma register_inv users user password new_salt users1 user1 :
  register kdf users user password new_salt = inr (users1, user1) ->
  findByUsername users (username user) = None
  /\ user1 = mkUser (_id user) (username user) (facebookId user) (firstname user)
               (lastname user) (admin user) new_salt (kdf password new_salt)
  /\ users1 = users ++ [user1].
Proof.
  unfold register. destruct (findByUsername users (username user)); [discriminate|].
  intros H. inversion H; subst. auto.
Qed.

Lemma findByUsername_replace users (u d : User) :
  findByUsername users (username d) = None ->
  _id u = _id d ->
  findByUsername (replace _id (users ++ [u]) d) (username d) = Some d.
Proof.
  unfold findByUsername. intros Hnone Hid.
  induction users as [|x l IH]; simpl in *.
  - rewrite Hid, String.eqb_refl. simpl. now rewrite String.eqb_refl.
  - destruct (String.eqb (username x) (username d)) eqn:Hx; [discriminate|].
    destruct (String.eqb (_id x) (_id d)); simpl.
    + now rewrite String.eqb_refl.
    + rewrite Hx. now apply IH.
Qed.

Lemma authenticate_found users name password user :
  findByUsername users name = Some user ->
  hash user = kdf password (salt user) ->
  authenticate kdf users name password = inr user.
Proof.
  intros Hf Hh. unfold authenticate. rewrite Hf, Hh. now rewrite String.eqb_refl.
Qed.

(** After a successful [register], whatever the rest of the signup handler
    does, the stored user with that username has the id, the salt and the
    hash that [register] gave it. *)
Lemma signup_store accepts users body oid new_salt users1 user1 :
  register kdf users (new_User oid (Users.body_username body))
    (Users.body_password body) new_salt = inr (users1, user1) ->
  exists user',
    findByUsername (fst (Users.signup kdf accepts users body oid new_salt))
      (Users.body_username body) = Some user'
    /\ _id user' = oid
    /\ hash user' = kdf (Users.body_password body) (salt user').
Proof.
  intros Hreg. unfold Users.signup. rewrite Hreg.
  apply register_inv in Hreg as (Hnone & -> & ->). simpl in Hnone |- *.
  set (u1 := mkUser oid _ None None None false new_salt _).
  set (u2 := if truthy (JStr <$> Users.body_firstname body) then _ else u1).
  set (u3 := if truthy (JStr <$> Users.body_lastname body) then _ else u2).
  assert (H3 : _id u3 = oid /\ username u3 = Users.body_username body
               /\ hash u3 = kdf (Users.body_password body) (salt u3)).
  { subst u3 u2 u1.
    destruct (truthy (JStr <$> Users.body_firstname body)),
             (truthy (JStr <$> Users.body_lastname body)); simpl; auto. }
  destruct H3 as (Hid & Hname & Hhash).
  unfold save. destruct (accepts (users ++ [u1]) u3).
  - exists u3. split; [|auto].
    destruct (Users.passport_local _ _ _); simpl;
      rewrite <- Hname; apply findByUsername_replace;
      try (rewrite Hname; exact Hnone); now rewrite Hid.
  - exists u1. simpl. split; [|auto].
    apply find_app_last; [exact Hnone|]. simpl. apply String.eqb_refl.
Qed.

End LocalFacts.

(** C4: when [register] accepts a username and password, the user it made
    has the id drawn for it, and the local strategy, given the same username
    and password, resolves to a user with that id: right after [register],
    in the collection the signup handler leaves behind, and in every later
    collection that holds further users after those; the login route then
    answers 200 with a token for that id. *)
Theorem register_then_authenticate :
  forall kdf accepts hmac secretKey users body oid new_salt users1 user1 now,
    PassportLocalMongoose.register kdf users
      (new_User oid (Users.body_username body)) (Users.body_password body) new_salt
    = inr (users1, user1) ->
    let users' := fst (Users.signup kdf accepts users body oid new_salt) in
    _id user1 = oid
    /\ Authenticate.local kdf users1 (Users.body_username body)
         (Users.body_password body) = inr user1
    /\ (exists user',
          Authenticate.local kdf users' (Users.body_username body)
            (Users.body_password body) = inr user'
          /\ _id user' = oid)
    /\ Users.login kdf hmac secretKey users' body now
       = ResJson 200
           (Users.LoggedIn true (Authenticate.getToken hmac secretKey oid now)
              "You are successfully logged in!")
    /\ forall rest,
         (exists user',
            Authenticate.local kdf (users' ++ rest) (Users.body_username body)
              (Users.body_password body) = inr user'
            /\ _id user' = oid)
         /\ Authenticate.local kdf (users1 ++ rest) (Users.body_username body)
              (Users.body_password body) = inr user1
         /\ Users.login kdf hmac secretKey (users' ++ rest) body now
            = ResJson 200
                (Users.LoggedIn true (Authenticate.getToken hmac secretKey oid now)
                   "You are successfully logged in!").
Proof.
  intros kdf accepts hmac secretKey users body oid new_salt users1 user1 now Hreg users'.
  destruct (signup_store kdf accepts users body oid new_salt users1 user1 Hreg)
    as (user' & Hfind & Hid & Hhash).
  fold users' in Hfind.
  pose proof (authenticate_found kdf users' _ _ user' Hfind Hhash) as Hauth.
  apply register_inv in Hreg as (Hnone & -> & ->). simpl in Hnone.
  assert (Hfind1 : PassportLocalMongoose.findByUsername
                     (users ++ [mkUser oid (Users.body_username body) None None None
                                  false new_salt
                                  (kdf (Users.body_password body) new_salt)])
                     (Users.body_username body)
                   = Some (mkUser oid (Users.body_username body) None None None
                             false new_salt
                             (kdf (Users.body_password body) new_salt))).
  { apply find_app_last; [exact Hnone|]. simpl. apply String.eqb_refl. }
  split; [reflexivity|]. split; [|split; [|split]].
  - now apply authenticate_found.
  - exists user'. split; [exact Hauth|exact Hid].
  - unfold Users.login, Users.passport_local. unfold Authenticate.local.
    rewrite Hauth, Hid. reflexivity.
  - intros rest.
    assert (Hlater : PassportLocalMongoose.authenticate kdf (users' ++ rest)
                       (Users.body_username body) (Users.body_password body)
                     = inr user').
    { apply authenticate_found; [|exact Hhash].
      unfold PassportLocalMongoose.findByUsername in *.
      now apply find_app_first. }
    split; [|split].
    + exists user'. split; [exact Hlater|exact Hid].
    + apply authenticate_found; [|reflexivity].
      unfold PassportLocalMongoose.findByUsername in *.
      now apply find_app_first.
    + unfold Users.login, Users.passport_local. unfold Authenticate.local.
      rewrite Hlater, Hid. reflexivity.
Qed.

Lemma register_then_authenticate_witness :
  Users.login example_kdf example_hmac "key"
    (fst (Users.signup example_kdf accept_all example_users
            (Users.mkCredentials "erin" "pw" (Some "Erin") None) "e5" "salt5"))
    (Users.mkCredentials "erin" "pw" (Some "Erin") None) 1000
  = ResJson 200
      (Users.LoggedIn true (Authenticate.getToken example_hmac "key" "e5" 1000)
         "You are successfully logged in!")
  /\ Users.login example_kdf example_hmac "key"
       (fst (Users.signup example_kdf accept_all example_users
               (Users.mkCredentials "erin" "pw" (Some "Erin") None) "e5" "salt5")
        ++ [zed])
       (Users.mkCredentials "erin" "pw" (Some "Erin") None) 1000
     = ResJson 200
         (Users.LoggedIn true (Authenticate.getToken example_hmac "key" "e5" 1000)
            "You are successfully logged in!").
Proof.
  destruct (register_then_authenticate example_kdf accept_all example_hmac "key"
              example_users (Users.mkCredentials "erin" "pw" (Some "Erin") None)
              "e5" "salt5" _ _ 1000 eq_refl) as (_ & _ & _ & Hnow & Hlater).
  split; [exact Hnow|]. exact (proj2 (proj2 (Hlater [zed]))).
Defined.

(** With the same username and another password, one whose hash under the
    stored salt differs, the local strategy refuses: the round trip above is
    due to the password. *)
Lemma wrong_password_refused kdf users name password user :
  PassportLocalMongoose.findByUsername users name = Some user ->
  kdf password (salt user) <> hash user ->
  Authenticate.local kdf users name password
  = inl PassportLocalMongoose.BadCredentials.
Proof.
  intros Hfind Hne. unfold Authenticate.local, PassportLocalMongoose.authenticate.
  rewrite Hfind. apply String.eqb_neq in Hne. now rewrite Hne.
Qed.

(** ** Logout *)

Lemma logout_with_session (sessions : gset string) (sid : string) :
  Users.logout sessions (Some sid)
  = (sessions ∖ {[sid]}, ResRedirect ["session-id"] "/").
Proof. reflexivity. Qed.

Lemma logout_destroys_session (sessions : gset string) (sid : string) :
  sid ∉ fst (Users.logout sessions (Some sid)).
Proof.
  rewrite logout_with_session. simpl. intros H.
  apply elem_of_difference in H as [_ H]. apply H. now apply elem_of_singleton.
Qed.

Lemma Err_unbound (err : JsError) : Users.logout_scope err !! "Err" = None.
Proof.
  unfold Users.logout_scope.
  repeat (rewrite lookup_insert_ne by discriminate).
  apply lookup_empty.
Qed.

Lemma err_bound (err : JsError) :
  Users.next_ident (Users.logout_scope err) "err" = NextErr err.
Proof.
  unfold Users.next_ident, Users.logout_scope. now rewrite lookup_insert_eq.
Qed.

(** C6: a logout request without a session does not end in the 401 error
    the handler builds: the handler names [Err], which is not bound, so a
    ReferenceError leaves it, with no status, and [next] is never called
    with the "You are not logged in!" error. *)
Theorem logout_without_session :
  forall sessions : gset string,
    Users.logout sessions None
    = (sessions, Thrown (ReferenceError "Err is not defined"))
    /\ Users.logout sessions None
       <> (sessions, NextErr (with_status (Error "You are not logged in!") 401)).
Proof.
  intros sessions.
  assert (H : Users.logout sessions None
              = (sessions, Thrown (ReferenceError "Err is not defined"))).
  { unfold Users.logout, Users.next_ident. now rewrite Err_unbound. }
  split; [exact H|]. rewrite H. intros Heq. inversion Heq.
Qed.

(** ** Editing and deleting a comment *)

Section CommentFacts.
Variable accepts : list CampsiteRouter.Campsite -> CampsiteRouter.Campsite -> bool.

Import CampsiteRouter.

(** Editing: anyone but the author is refused with 403, admin or not. *)
Lemma comment_put_not_author req req_user campsites campsite comment a :
  findById campsite_id campsites (campsiteId req) = Resolved (Some campsite) ->
  comments_id campsite (commentId req) = Some comment ->
  author comment = Some a ->
  _id req_user <> a ->
  comment_put accepts req req_user campsites = (campsites, NextErr forbidden_comment).
Proof.
  intros Hc Hk Ha Hne. unfold comment_put. rewrite Hc. simpl. rewrite Hk, Ha.
  apply String.eqb_neq in Hne. now rewrite Hne.
Qed.

(** Editing: the author's request is saved and answered with 200. *)
Lemma comment_put_author req req_user campsites campsite comment :
  findById campsite_id campsites (campsiteId req) = Resolved (Some campsite) ->
  comments_id campsite (commentId req) = Some comment ->
  author comment = Some (_id req_user) ->
  (forall c, accepts campsites c = true) ->
  exists campsite',
    comment_put accepts req req_user campsites
    = (replace campsite_id campsites campsite', ResJson 200 (Document campsite')).
Proof.
  intros Hc Hk Ha Hacc. unfold comment_put. rewrite Hc. simpl. rewrite Hk, Ha.
  rewrite String.eqb_refl. unfold save. rewrite Hacc. eexists. reflexivity.
Qed.

(** Editing succeeds only for the author. *)
Lemma comment_put_ok_only_author req req_user campsites campsites' b :
  comment_put accepts req req_user campsites = (campsites', ResJson 200 b) ->
  exists campsite comment,
    findById campsite_id campsites (campsiteId req) = Resolved (Some campsite)
    /\ comments_id campsite (commentId req) = Some comment
    /\ author comment = Some (_id req_user).
Proof.
  unfold comment_put, findById, findOne.
  destruct (List.find _ campsites) as [campsite|] eqn:Hc; simpl; [|discriminate].
  destruct (comments_id campsite (commentId req)) as [comment|] eqn:Hk;
    [|discriminate].
  destruct (author comment) as [a|] eqn:Ha; [|discriminate].
  destruct (String.eqb (_id req_user) a) eqn:He; [|discriminate].
  apply String.eqb_eq in He. subst a. intros _.
  exists campsite, comment. auto.
Qed.


(** Deleting: a user who is neither the author nor an admin gets the 404
    "Comment .. not found" of the last branch, although the comment exists:
    the 403 sits in a branch that is never reached. *)
Lemma comment_delete_other req req_user campsites campsite comment a :
  findById campsite_id campsites (campsiteId req) = Resolved (Some campsite) ->
  comments_id campsite (commentId req) = Some comment ->
  author comment = Some a ->
  _id req_user <> a ->
  admin req_user = false ->
  comment_delete accepts req req_user campsites
  = (campsites, NextErr (not_found "Comment" (commentId req))).
Proof.
  intros Hc Hk Ha Hne Hadm. unfold comment_delete. rewrite Hc, Hk, Ha, Hadm.
  apply String.eqb_neq in Hne. rewrite Hne. reflexivity.
Qed.

End CommentFacts.

(** C1: carol, who is neither the author of alice's comment nor an admin,
    asks to delete it: the router answers with the 404 error "Comment k1 not
    found", not with a 403, and the comment stays.  (dave, an admin, is
    refused the edit with 403 and allowed the delete, as is stated for
    them.) *)
Theorem delete_by_stranger_is_404 :
  CampsiteRouter.campsiteRouter accept_all example_users example_hmac "key"
    CampsiteRouter.CommentPath CampsiteRouter.DELETE (example_request carol ∅)
    [example_campsite]
  = ([example_campsite], NextErr (mkError "Error" "Comment k1 not found" (Some 404)))
  /\ CampsiteRouter.campsiteRouter accept_all example_users example_hmac "key"
       CampsiteRouter.CommentPath CampsiteRouter.PUT
       (example_request dave (<["text" := JStr "edited"]> ∅)) [example_campsite]
     = ([example_campsite],
        NextErr (mkError "Error" "You are not authorized to delete this comment!"
                   (Some 403)))
  /\ CampsiteRouter.campsiteRouter accept_all example_users example_hmac "key"
       CampsiteRouter.CommentPath CampsiteRouter.DELETE (example_request dave ∅)
       [example_campsite]
     = ([CampsiteRouter.mkCampsite "s1" ∅ []],
        ResJson 200 (CampsiteRouter.Document (CampsiteRouter.mkCampsite "s1" ∅ []))).
Proof. vm_compute. repeat split. Qed.

(** ** Posting a comment *)

Lemma comments_post_unchanged accepts req req_user campsites :
  (findById CampsiteRouter.campsite_id campsites (CampsiteRouter.campsiteId req)
   = Resolved None
   \/ forall c, accepts campsites c = false) ->
  fst (CampsiteRouter.comments_post accepts req req_user campsites) = campsites.
Proof.
  unfold CampsiteRouter.comments_post, save. intros [-> | Hrej]; [reflexivity|].
  destruct (findById _ _ _) as [[c|]|e]; try reflexivity.
  now rewrite Hrej.
Qed.

(** C8: when the campsite exists and the store accepts the save, the
    comment the POST adds is the last of the campsite's comments and its
    author is the id of the authenticated user; an author value the client
    puts in the body changes nothing of the outcome. *)
Theorem posted_comment_author :
  forall accepts req req_user campsites campsite,
    findById CampsiteRouter.campsite_id campsites (CampsiteRouter.campsiteId req)
    = Resolved (Some campsite) ->
    let stored :=
      CampsiteRouter.push campsite (CampsiteRouter.oid req)
        (<["author" := JId (_id req_user)]> (CampsiteRouter.body req)) in
    accepts campsites stored = true ->
    CampsiteRouter.comments_post accepts req req_user campsites
    = (replace CampsiteRouter.campsite_id campsites stored,
       ResJson 200 (CampsiteRouter.Document stored))
    /\ (exists c,
          CampsiteRouter.comments stored = CampsiteRouter.comments campsite ++ [c]
          /\ CampsiteRouter.comment_id c = CampsiteRouter.oid req
          /\ CampsiteRouter.author c = Some (_id req_user))
    /\ forall v,
         CampsiteRouter.comments_post accepts
           (CampsiteRouter.mkRequest (CampsiteRouter.authorization req)
              (CampsiteRouter.campsiteId req) (CampsiteRouter.commentId req)
              (<["author" := v]> (CampsiteRouter.body req))
              (CampsiteRouter.now req) (CampsiteRouter.oid req))
           req_user campsites
         = CampsiteRouter.comments_post accepts req req_user campsites.
Proof.
  intros accepts req req_user campsites campsite Hfind stored Hacc.
  split; [|split].
  - unfold CampsiteRouter.comments_post, save. rewrite Hfind. fold stored.
    now rewrite Hacc.
  - eexists. split; [reflexivity|]. simpl. split; [reflexivity|].
    now rewrite lookup_insert_eq.
  - intros v. unfold CampsiteRouter.comments_post. simpl.
    now rewrite insert_insert_eq.
Qed.

Lemma posted_comment_author_witness :
  CampsiteRouter.comments_post accept_all
    (example_request carol (<["author" := JId "a1"]> (<["text" := JStr "Hi"]> ∅)))
    carol [example_campsite]
  = ([CampsiteRouter.mkCampsite "s1" ∅
        [example_comment;
         CampsiteRouter.mkComment "k2" None (Some (JStr "Hi")) (Some "c3")]],
     ResJson 200
       (CampsiteRouter.Document
          (CampsiteRouter.mkCampsite "s1" ∅
             [example_comment;
              CampsiteRouter.mkComment "k2" None (Some (JStr "Hi")) (Some "c3")]))).
Proof.
  pose proof (posted_comment_author accept_all
                (example_request carol
                   (<["author" := JId "a1"]> (<["text" := JStr "Hi"]> ∅)))
                carol [example_campsite] example_campsite eq_refl eq_refl) as H.
  destruct H as [H _]. rewrite H. vm_compute. reflexivity.
Defined.

(** ** Favorites *)

Section FavoriteFacts.
Variable accepts : list FavoriteRouter.Favorite -> FavoriteRouter.Favorite -> bool.

Import FavoriteRouter.

Lemma includes_In (l : list ObjectId) (i : ObjectId) :
  includes l i = true <-> In i l.
Proof.
  unfold includes. rewrite existsb_exists. split.
  - intros (x & Hx & He). apply String.eqb_eq in He. now subst.
  - intros Hi. exists i. split; [exact Hi|apply String.eqb_refl].
Qed.

Lemma NoDup_snoc (l : list ObjectId) (i : ObjectId) :
  List.NoDup l -> ~ In i l -> List.NoDup (l ++ [i]).
Proof.
  intros Hl Hi. induction Hl as [|x l Hx Hl IH]; simpl.
  - constructor; [tauto|constructor].
  - constructor.
    + rewrite in_app_iff. simpl. intros [H|[H|[]]]; [tauto|].
      subst. apply Hi. now left.
    + apply IH. intros H. apply Hi. now right.
Qed.

(** The loop of [POST /favorites] on an existing document adds no
    duplicate. *)
Lemma push_each_NoDup (req_body : list FavCampsite) (l : list ObjectId) :
  List.NoDup l -> List.NoDup (push_each l req_body).
Proof.
  unfold push_each. revert l.
  induction req_body as [|f req_body IH]; simpl; intros l Hl; [exact Hl|].
  apply IH. destruct (includes l (fav_id f)) eqn:Hinc; simpl; [exact Hl|].
  apply NoDup_snoc; [exact Hl|]. intros Hin. apply includes_In in Hin. congruence.
Qed.

(** [POST /favorites/:campsiteId] on an existing document that holds the
    campsite changes nothing and says so. *)
Lemma favorite_post_present campsiteId req_user oid favorites favorite :
  findOne (fun f => String.eqb (user f) (_id req_user)) favorites
  = Resolved (Some favorite) ->
  In campsiteId (campsites favorite) ->
  favorite_post accepts campsiteId req_user oid favorites
  = (favorites, ResEnd 200 "That campsite is already a favorite!").
Proof.
  intros Hf Hin. unfold favorite_post. rewrite Hf.
  apply includes_In in Hin. now rewrite Hin.
Qed.

(** What does hold: as long as every posted list is itself free of
    duplicates, no sequence of adds puts a duplicate in any document. *)

Lemma Forall_replace {A} (id_of : A -> ObjectId) (P : A -> Prop) (c : list A) (d : A) :
  Forall P c -> P d -> Forall P (replace id_of c d).
Proof.
  intros Hc Hd. induction Hc as [|x c Hx Hc IH]; simpl; [constructor|].
  destruct (String.eqb (id_of x) (id_of d)); constructor; auto.
Qed.

Lemma findOne_Forall {A} (P : A -> Prop) (f : A -> bool) (c : list A) (d : A) :
  Forall P c -> findOne f c = Resolved (Some d) -> P d.
Proof.
  unfold findOne. intros Hc Hf. inversion Hf as [Hfind].
  apply find_some in Hfind as [Hin _].
  rewrite Forall_forall in Hc. apply Hc.
  apply list_elem_of_In. exact Hin.
Qed.

Lemma add_no_duplicates req_user favorites (a : Add) :
  no_duplicates favorites ->
  (forall req_body oid, a = AddList req_body oid -> List.NoDup (map fav_id req_body)) ->
  no_duplicates (add accepts req_user favorites a).
Proof.
  intros Hinv Hbody. unfold no_duplicates in *.
  destruct a as [req_body oid|campsiteId oid]; simpl.
  - unfold favorites_post.
    destruct (findOne _ favorites) as [[favorite|]|e] eqn:Hf; simpl; [| |exact Hinv].
    + unfold save. destruct (accepts _ _); simpl; [|exact Hinv].
      apply Forall_replace; [exact Hinv|]. simpl. apply push_each_NoDup.
      exact (findOne_Forall _ _ _ _ Hinv Hf).
    + unfold create. destruct (accepts _ _); simpl; [|exact Hinv].
      apply Forall_app. split; [exact Hinv|].
      constructor; [|constructor]. simpl. now apply (Hbody req_body oid).
  - unfold favorite_post.
    destruct (findOne _ favorites) as [[favorite|]|e] eqn:Hf; simpl; [| |exact Hinv].
    + destruct (includes (campsites favorite) campsiteId) eqn:Hinc; simpl;
        [exact Hinv|].
      unfold save. destruct (accepts _ _); simpl; [|exact Hinv].
      apply Forall_replace; [exact Hinv|]. simpl.
      apply NoDup_snoc; [exact (findOne_Forall _ _ _ _ Hinv Hf)|].
      intros Hin. apply includes_In in Hin. congruence.
    + unfold create. destruct (accepts _ _); simpl; [|exact Hinv].
      apply Forall_app. split; [exact Hinv|].
      constructor; [|constructor]. simpl.
      constructor; [simpl; tauto|constructor].
Qed.

Lemma add_all_no_duplicates req_user (l : list Add) favorites :
  no_duplicates favorites ->
  (forall req_body oid, In (AddList req_body oid) l ->
                        List.NoDup (map fav_id req_body)) ->
  no_duplicates (add_all accepts req_user favorites l).
Proof.
  unfold add_all. revert favorites.
  induction l as [|a l IH]; simpl; intros favorites Hinv Hbody; [exact Hinv|].
  apply IH.
  - apply add_no_duplicates; [exact Hinv|].
    intros req_body oid ->. apply (Hbody req_body oid). now left.
  - intros req_body oid Hin. apply (Hbody req_body oid). now right.
Qed.

End FavoriteFacts.

(** C9: carol has no favorites document yet and posts the same campsite id
    twice in one list: the document that is created holds the id twice.
    The membership test of the other branch is not made on this one. *)
Theorem favorites_created_with_duplicates :
  FavoriteRouter.favorites_post accept_all
    [FavoriteRouter.mkFavCampsite "s1"; FavoriteRouter.mkFavCampsite "s1"]
    carol "f1" []
  = ([FavoriteRouter.mkFavorite "f1" "c3" ["s1"; "s1"]],
     ResJson 200
       (FavoriteRouter.Document (FavoriteRouter.mkFavorite "f1" "c3" ["s1"; "s1"])))
  /\ ~ List.NoDup ["s1"; "s1"].
Proof.
  split; [reflexivity|].
  intros H. inversion H as [|x l Hx Hl]; subst. apply Hx. now left.
Qed.

(** ** Which routes ask for a token *)

Section RouteFacts.
Variable accepts : list CampsiteRouter.Campsite -> CampsiteRouter.Campsite -> bool.
Variable users : list User.
Variable hmac : string -> Authenticate.Payload -> string.
Variable secretKey : string.

Import CampsiteRouter.

Lemma get_handlers_status p req campsites :
  status_of (snd (campsiteRouter accepts users hmac secretKey p GET req campsites))
  = Some 200
  \/ status_of (snd (campsiteRouter accepts users hmac secretKey p GET req campsites))
     = Some 404.
Proof.
  unfold campsiteRouter.
  destruct p; cbn [middleware run handler].
  - now left.
  - unfold campsite_get, findById, findOne. now left.
  - unfold comments_get, findById, findOne.
    destruct (List.find _ campsites); [now left|now right].
  - unfold comment_get, findById, findOne.
    destruct (List.find _ campsites) as [c|]; simpl; [|now right].
    destruct (comments_id c (commentId req)); [now left|now right].
Qed.

Lemma get_handlers_read_only p req campsites :
  fst (campsiteRouter accepts users hmac secretKey p GET req campsites) = campsites.
Proof.
  unfold campsiteRouter.
  destruct p; cbn [middleware run handler]; try reflexivity.
  - unfold comments_get, findById, findOne.
    now destruct (List.find _ campsites).
  - unfold comment_get, findById, findOne.
    destruct (List.find _ campsites) as [c|]; simpl; [|reflexivity].
    now destruct (comments_id c (commentId req)).
Qed.

Lemma mutating_needs_token p m req campsites :
  m <> GET ->
  (forall user,
     Authenticate.verifyUser hmac secretKey users (now req) (authorization req)
     <> Authenticate.Authenticated user) ->
  campsiteRouter accepts users hmac secretKey p m req campsites
  = (campsites, ResEnd 401 "Unauthorized").
Proof.
  intros Hm Hno. unfold campsiteRouter.
  destruct (verifyUser_never_errors hmac secretKey users (now req) (authorization req))
    as [[user Hu]|Hu]; [now destruct (Hno user)|].
  destruct p, m; try congruence; cbn [middleware run]; now rewrite Hu.
Qed.

End RouteFacts.

(** C10: on each of the four paths of the campsite router the GET route
    lists no middleware: its outcome does not depend on the Authorization
    header or on the clock, it changes nothing and its status is 200 or 404,
    never 401.  Every POST, PUT and DELETE route lists [verifyUser] first,
    and a request whose token [verifyUser] does not accept is answered 401
    with the collection untouched. *)
Theorem reads_open_writes_verified :
  forall accepts users hmac secretKey p campsites a cid kid req_body now oid,
    let req := CampsiteRouter.mkRequest a cid kid req_body now oid in
    let router := CampsiteRouter.campsiteRouter accepts users hmac secretKey in
    (CampsiteRouter.middleware p CampsiteRouter.GET = []
     /\ (forall a' now',
           router p CampsiteRouter.GET
             (CampsiteRouter.mkRequest a' cid kid req_body now' oid) campsites
           = router p CampsiteRouter.GET req campsites)
     /\ fst (router p CampsiteRouter.GET req campsites) = campsites
     /\ status_of (snd (router p CampsiteRouter.GET req campsites)) <> Some 401)
    /\ forall m,
         m <> CampsiteRouter.GET ->
         head (CampsiteRouter.middleware p m) = Some CampsiteRouter.VerifyUser
         /\ ((forall user,
                Authenticate.verifyUser hmac secretKey users now a
                <> Authenticate.Authenticated user) ->
             router p m req campsites = (campsites, ResEnd 401 "Unauthorized")).
Proof.
  intros accepts users hmac secretKey p campsites a cid kid req_body now oid req router.
  subst router. split; [split; [|split; [|split]]|].
  - now destruct p.
  - intros a' now'. unfold CampsiteRouter.campsiteRouter.
    destruct p; reflexivity.
  - apply get_handlers_read_only.
  - destruct (get_handlers_status accepts users hmac secretKey p req campsites)
      as [-> | ->]; discriminate.
  - intros m Hm. split.
    + destruct p, m; try congruence; reflexivity.
    + intros Hno. now apply mutating_needs_token.
Qed.

Lemma reads_open_writes_verified_witness :
  CampsiteRouter.campsiteRouter accept_all example_users example_hmac "key"
    CampsiteRouter.CommentsPath CampsiteRouter.POST
    (CampsiteRouter.mkRequest None "s1" "k1" ∅ 2000 "k2") [example_campsite]
  = ([example_campsite], ResEnd 401 "Unauthorized").
Proof.
  apply (proj2 (reads_open_writes_verified accept_all example_users example_hmac "key"
                  CampsiteRouter.CommentsPath [example_campsite]
                  None "s1" "k1" ∅ 2000 "k2") CampsiteRouter.POST).
  - discriminate.
  - intros user. discriminate.
Defined.

(** Without a token the comments of a campsite are served all the same. *)
Example comments_get_without_token :
  CampsiteRouter.campsiteRouter accept_all example_users example_hmac "key"
    CampsiteRouter.CommentsPath CampsiteRouter.GET
    (CampsiteRouter.mkRequest None "s1" "k1" ∅ 2000 "k2") [example_campsite]
  = ([example_campsite],
     ResJson 200 (CampsiteRouter.Comments [(example_comment, Some alice)])).
Proof. reflexivity. Qed.

(** * Further properties of the routers *)

(** ** Replacing and removing documents by id *)

Section ById.
Context {A : Type}.
Variable id_of : A -> ObjectId.

Lemma find_by_id_id (c : list A) (i : ObjectId) (d : A) :
  List.find (fun x => String.eqb (id_of x) i) c = Some d -> id_of d = i.
Proof. intros H. apply find_satisfies in H. now apply String.eqb_eq in H. Qed.

Lemma find_replace_same (c : list A) (d d' : A) :
  List.find (fun x => String.eqb (id_of x) (id_of d')) c = Some d ->
  List.find (fun x => String.eqb (id_of x) (id_of d')) (replace id_of c d') = Some d'.
Proof.
  induction c as [|x c IH]; simpl; [discriminate|].
  destruct (String.eqb (id_of x) (id_of d')) eqn:Hx; simpl.
  - intros _. now rewrite String.eqb_refl.
  - rewrite Hx. exact IH.
Qed.

Lemma find_replace_other (c : list A) (d' : A) (j : ObjectId) :
  j <> id_of d' ->
  List.find (fun x => String.eqb (id_of x) j) (replace id_of c d') = List.find (fun x => String.eqb (id_of x) j) c.
Proof.
  intros Hj. induction c as [|x c IH]; simpl; [reflexivity|].
  destruct (String.eqb (id_of x) (id_of d')) eqn:Hx; simpl.
  - apply String.eqb_eq in Hx.
    assert (H1 : String.eqb (id_of d') j = false)
      by (apply String.eqb_neq; congruence).
    assert (H2 : String.eqb (id_of x) j = false)
      by (apply String.eqb_neq; congruence).
    now rewrite H1, H2.
  - destruct (String.eqb (id_of x) j); [reflexivity|exact IH].
Qed.

Lemma replace_self (c : list A) (d : A) :
  List.find (fun x => String.eqb (id_of x) (id_of d)) c = Some d -> replace id_of c d = c.
Proof.
  induction c as [|x c IH]; simpl; [reflexivity|].
  destruct (String.eqb (id_of x) (id_of d)) eqn:Hx.
  - intros H. now inversion H.
  - intros H. f_equal. now apply IH.
Qed.

Lemma map_replace {B} (f : A -> B) (c : list A) (d d' : A) :
  List.find (fun x => String.eqb (id_of x) (id_of d')) c = Some d ->
  f d' = f d ->
  map f (replace id_of c d') = map f c.
Proof.
  intros Hfind Hf. induction c as [|x c IH]; simpl in *; [reflexivity|].
  destruct (String.eqb (id_of x) (id_of d')) eqn:Hx; simpl.
  - inversion Hfind; subst. now rewrite Hf.
  - f_equal. now apply IH.
Qed.

Lemma filter_replace (g : A -> bool) (c : list A) (d d' : A) :
  List.find (fun x => String.eqb (id_of x) (id_of d')) c = Some d ->
  g d = false -> g d' = false ->
  List.filter g (replace id_of c d') = List.filter g c.
Proof.
  intros Hfind Hd Hd'. induction c as [|x c IH]; simpl in *; [reflexivity|].
  destruct (String.eqb (id_of x) (id_of d')) eqn:Hx; simpl.
  - inversion Hfind; subst. now rewrite Hd, Hd'.
  - destruct (g x); [f_equal|]; now apply IH.
Qed.

Lemma filter_remove_id (g : A -> bool) (c : list A) (i : ObjectId) (d : A) :
  List.find (fun x => String.eqb (id_of x) i) c = Some d ->
  g d = false ->
  List.filter g (remove_id id_of c i) = List.filter g c.
Proof.
  intros Hfind Hd. induction c as [|x c IH]; simpl in *; [reflexivity|].
  destruct (String.eqb (id_of x) i) eqn:Hx; simpl.
  - inversion Hfind; subst. now rewrite Hd.
  - destruct (g x); [f_equal|]; now apply IH.
Qed.

Lemma remove_id_absent (c : list A) (i : ObjectId) :
  List.find (fun x => String.eqb (id_of x) i) c = None -> remove_id id_of c i = c.
Proof.
  induction c as [|x c IH]; simpl; [reflexivity|].
  destruct (String.eqb (id_of x) i); [discriminate|].
  intros H. f_equal. now apply IH.
Qed.

Lemma length_remove_id (c : list A) (i : ObjectId) (d : A) :
  List.find (fun x => String.eqb (id_of x) i) c = Some d ->
  S (length (remove_id id_of c i)) = length c.
Proof.
  induction c as [|x c IH]; simpl; [discriminate|].
  destruct (String.eqb (id_of x) i); [reflexivity|].
  intros H. simpl. f_equal. now apply IH.
Qed.

Lemma find_remove_id_other (c : list A) (i j : ObjectId) :
  j <> i ->
  List.find (fun x => String.eqb (id_of x) j) (remove_id id_of c i) = List.find (fun x => String.eqb (id_of x) j) c.
Proof.
  intros Hj. induction c as [|x c IH]; simpl; [reflexivity|].
  destruct (String.eqb (id_of x) i) eqn:Hx; simpl.
  - apply String.eqb_eq in Hx.
    assert (H : String.eqb (id_of x) j = false)
      by (apply String.eqb_neq; congruence).
    now rewrite H.
  - destruct (String.eqb (id_of x) j); [reflexivity|exact IH].
Qed.

Lemma find_absent_not_in (c : list A) (i : ObjectId) :
  List.find (fun x => String.eqb (id_of x) i) c = None <-> ~ In i (map id_of c).
Proof.
  rewrite find_none_iff, in_map_iff. split.
  - intros H (x & Hx & Hin). specialize (H x Hin). simpl in H.
    apply String.eqb_neq in H. congruence.
  - intros H x Hin. apply String.eqb_neq. intros Hx. apply H. now exists x.
Qed.

Lemma find_remove_id_unique (c : list A) (i : ObjectId) :
  List.NoDup (map id_of c) ->
  List.find (fun x => String.eqb (id_of x) i) (remove_id id_of c i) = None.
Proof.
  induction c as [|x c IH]; simpl; [reflexivity|].
  intros Hnd. inversion Hnd as [|y l Hy Hl]; subst.
  destruct (String.eqb (id_of x) i) eqn:Hx; simpl.
  - apply String.eqb_eq in Hx. subst i. now apply find_absent_not_in.
  - rewrite Hx. now apply IH.
Qed.

Lemma find_unique (c : list A) (d : A) :
  In d c -> List.NoDup (map id_of c) ->
  List.find (fun x => String.eqb (id_of x) (id_of d)) c = Some d.
Proof.
  induction c as [|x c IH]; simpl; [tauto|].
  intros [->|Hin] Hnd.
  - now rewrite String.eqb_refl.
  - inversion Hnd as [|y l Hy Hl]; subst.
    destruct (String.eqb (id_of x) (id_of d)) eqn:Hx; [|now apply IH].
    apply String.eqb_eq in Hx. exfalso. apply Hy. rewrite Hx.
    now apply in_map.
Qed.

Lemma map_id_replace (c : list A) (d d' : A) :
  List.find (fun x => String.eqb (id_of x) (id_of d')) c = Some d ->
  map id_of (replace id_of c d') = map id_of c.
Proof.
  intros H. apply (map_replace id_of c d d' H).
  symmetry. exact (find_by_id_id c _ d H).
Qed.

End ById.

(** ** Comments of a campsite *)

Lemma find_of_In {A} (id_of : A -> ObjectId) (c : list A) (d : A) :
  In d c -> exists d', List.find (fun x => String.eqb (id_of x) (id_of d)) c = Some d'.
Proof.
  intros Hin. destruct (List.find _ c) as [d'|] eqn:Hf; [now exists d'|].
  rewrite find_none_iff in Hf. specialize (Hf d Hin). simpl in Hf.
  now rewrite String.eqb_refl in Hf.
Qed.

Lemma length_replace {A} (id_of : A -> ObjectId) (c : list A) (d : A) :
  length (replace id_of c d) = length c.
Proof.
  induction c as [|x c IH]; simpl; [reflexivity|].
  destruct (String.eqb (id_of x) (id_of d)); simpl; congruence.
Qed.

(** The loop of [DELETE /:campsiteId/comments] leaves no comment. *)
Lemma remove_each_all (n : nat) (cs : list CampsiteRouter.Comment) :
  length cs = n -> CampsiteRouter.remove_each n cs = Resolved [].
Proof.
  revert cs. induction n as [|n IH]; intros cs Hlen; simpl.
  - now destruct cs.
  - destruct (lookup_lt_is_Some_2 cs n ltac:(lia)) as [c Hc].
    rewrite Hc. apply IH.
    assert (Hin : In c cs).
    { apply list_elem_of_In. apply list_elem_of_lookup. now exists n. }
    destruct (find_of_In CampsiteRouter.comment_id cs c Hin) as [d Hd].
    pose proof (length_remove_id CampsiteRouter.comment_id cs _ d Hd). lia.
Qed.

Section CommentsFacts.
Variable accepts : list CampsiteRouter.Campsite -> CampsiteRouter.Campsite -> bool.
Variable users : list User.

Import CampsiteRouter.

Lemma findById_replace_same campsites campsite campsite' i :
  findById campsite_id campsites i = Resolved (Some campsite) ->
  campsite_id campsite' = campsite_id campsite ->
  findById campsite_id (replace campsite_id campsites campsite') i
  = Resolved (Some campsite').
Proof.
  unfold findById, findOne. intros H Hid. inversion H as [Hf].
  pose proof (find_by_id_id campsite_id campsites i campsite Hf) as Hi.
  f_equal. rewrite <- Hi, <- Hid. apply (find_replace_same _ _ campsite).
  now rewrite Hid, Hi.
Qed.

(** X1: [DELETE /:campsiteId/comments] on an existing campsite whose
    comments have distinct ids, when the save is accepted, stores the
    campsite with its id and fields and with no comment at all; reading the
    comments afterwards gives the empty list. *)
Theorem delete_all_comments_leaves_none :
  forall req campsites campsite,
    findById campsite_id campsites (campsiteId req) = Resolved (Some campsite) ->
    List.NoDup (map comment_id (comments campsite)) ->
    let emptied := mkCampsite (campsite_id campsite) (fields campsite) [] in
    accepts campsites emptied = true ->
    comments_delete accepts req campsites
    = (replace campsite_id campsites emptied, ResJson 200 (Document emptied))
    /\ comments_get users req (replace campsite_id campsites emptied)
       = (replace campsite_id campsites emptied, ResJson 200 (Comments [])).
Proof.
  intros req campsites campsite Hfind _ emptied Hacc. split.
  - unfold comments_delete, save. rewrite Hfind.
    rewrite (remove_each_all _ _ eq_refl). fold emptied. now rewrite Hacc.
  - unfold comments_get.
    now rewrite (findById_replace_same _ campsite emptied _ Hfind eq_refl).
Qed.

(** The comment an accepted edit stores. *)
Lemma comment_put_stores req req_user campsites campsite comment :
  findById campsite_id campsites (campsiteId req) = Resolved (Some campsite) ->
  comments_id campsite (commentId req) = Some comment ->
  author comment = Some (_id req_user) ->
  let edited :=
    mkComment (comment_id comment)
      (if truthy (body req !! "rating") then body req !! "rating" else rating comment)
      (if truthy (body req !! "text") then body req !! "text" else text comment)
      (author comment) in
  let campsite' :=
    mkCampsite (campsite_id campsite) (fields campsite)
      (replace comment_id (comments campsite) edited) in
  comment_put accepts req req_user campsites
  = if accepts campsites campsite'
    then (replace campsite_id campsites campsite', ResJson 200 (Document campsite'))
    else (campsites, NextErr ValidationError).
Proof.
  intros Hc Hk Ha edited campsite'. unfold comment_put. rewrite Hc. simpl.
  rewrite Hk, Ha, String.eqb_refl. unfold save.
  subst campsite' edited. destruct comment as [ci r t a]. simpl in *. subst a.
  destruct (truthy (body req !! "rating")), (truthy (body req !! "text")); simpl;
    destruct (accepts campsites _); reflexivity.
Qed.

Lemma comments_id_replace campsite comment edited i :
  comments_id campsite i = Some comment ->
  comment_id edited = comment_id comment ->
  comments_id
    (mkCampsite (campsite_id campsite) (fields campsite)
       (replace comment_id (comments campsite) edited)) i
  = Some edited.
Proof.
  unfold comments_id. simpl. intros Hk Hid.
  pose proof (find_by_id_id comment_id _ i comment Hk) as Hi.
  rewrite <- Hi, <- Hid. apply (find_replace_same _ _ comment).
  now rewrite Hid, Hi.
Qed.

(** X2: when the author edits a comment and the save is accepted, the
    comment read back has the rating and the text of the body where these
    are truthy and the old ones otherwise (a rating of 0 or an empty text
    changes nothing), its id and author are the old ones, and the campsite
    has as many comments as before. *)
Theorem edit_then_read :
  forall req req_user campsites campsite comment,
    findById campsite_id campsites (campsiteId req) = Resolved (Some campsite) ->
    comments_id campsite (commentId req) = Some comment ->
    author comment = Some (_id req_user) ->
    let edited :=
      mkComment (comment_id comment)
        (if truthy (body req !! "rating") then body req !! "rating"
         else rating comment)
        (if truthy (body req !! "text") then body req !! "text" else text comment)
        (author comment) in
    let campsite' :=
      mkCampsite (campsite_id campsite) (fields campsite)
        (replace comment_id (comments campsite) edited) in
    accepts campsites campsite' = true ->
    fst (comment_put accepts req req_user campsites)
    = replace campsite_id campsites campsite'
    /\ comment_get users req (fst (comment_put accepts req req_user campsites))
       = (replace campsite_id campsites campsite',
          ResJson 200 (OneComment (populate_comment users edited)))
    /\ length (comments campsite') = length (comments campsite).
Proof.
  intros req req_user campsites campsite comment Hc Hk Ha edited campsite' Hacc.
  pose proof (comment_put_stores req req_user campsites campsite comment Hc Hk Ha)
    as Hput.
  simpl in Hput. fold edited in Hput. fold campsite' in Hput.
  rewrite Hacc in Hput. rewrite Hput. simpl. split; [reflexivity|]. split.
  - unfold comment_get.
    rewrite (findById_replace_same _ campsite campsite' _ Hc eq_refl). simpl.
    unfold campsite'.
    now rewrite (comments_id_replace campsite comment edited _ Hk eq_refl).
  - apply length_replace.
Qed.

(** X3: an edit by the author whose body has neither a truthy rating nor a
    truthy text is answered 200 with the campsite as it was, and the
    collection is what it was. *)
Theorem empty_edit_changes_nothing :
  forall req req_user campsites campsite comment,
    findById campsite_id campsites (campsiteId req) = Resolved (Some campsite) ->
    comments_id campsite (commentId req) = Some comment ->
    author comment = Some (_id req_user) ->
    truthy (body req !! "rating") = false ->
    truthy (body req !! "text") = false ->
    accepts campsites campsite = true ->
    comment_put accepts req req_user campsites
    = (campsites, ResJson 200 (Document campsite)).
Proof.
  intros req req_user campsites campsite comment Hc Hk Ha Hr Ht Hacc.
  rewrite (comment_put_stores req req_user campsites campsite comment Hc Hk Ha).
  rewrite Hr, Ht.
  assert (Hsame : mkComment (comment_id comment) (rating comment) (text comment)
                    (author comment) = comment) by now destruct comment.
  rewrite Hsame.
  assert (Hcs : replace comment_id (comments campsite) comment = comments campsite).
  { apply replace_self. unfold comments_id in Hk.
    now rewrite (find_by_id_id comment_id _ _ comment Hk). }
  rewrite Hcs.
  assert (Hsame' : mkCampsite (campsite_id campsite) (fields campsite)
                     (comments campsite) = campsite) by now destruct campsite.
  rewrite Hsame', Hacc.
  unfold findById, findOne in Hc. inversion Hc as [Hf].
  rewrite replace_self; [reflexivity|].
  now rewrite (find_by_id_id campsite_id _ _ campsite Hf).
Qed.

(** X4: for a campsite id that is not in the collection, reading or
    posting comments, deleting all comments, and reading or editing one
    comment all end in the 404 error "Campsite <id> not found" with the
    collection untouched; deleting one comment instead ends in a TypeError
    that carries no status. *)
Theorem unknown_campsite :
  forall req req_user campsites,
    findById campsite_id campsites (campsiteId req) = Resolved None ->
    let missing : Result :=
      (campsites,
       NextErr (mkError "Error" ("Campsite " +:+ campsiteId req +:+ " not found")
                  (Some 404))) in
    comments_get users req campsites = missing
    /\ comments_post accepts req req_user campsites = missing
    /\ comments_delete accepts req campsites = missing
    /\ comment_get users req campsites = missing
    /\ comment_put accepts req req_user campsites = missing
    /\ comment_delete accepts req req_user campsites
       = (campsites,
          NextErr (mkError "TypeError" "Cannot read property 'comments' of null" None)).
Proof.
  intros req req_user campsites Hnone missing. subst missing.
  unfold comments_get, comments_post, comments_delete, comment_get, comment_put,
    comment_delete.
  rewrite Hnone. repeat split.
Qed.

(** X5: for a comment id that the existing campsite does not hold, reading
    and editing end in the 404 error "Comment <id> not found", while
    deleting ends in a TypeError that carries no status; the collection is
    untouched in all three. *)
Theorem unknown_comment :
  forall req req_user campsites campsite,
    findById campsite_id campsites (campsiteId req) = Resolved (Some campsite) ->
    comments_id campsite (commentId req) = None ->
    let missing : Result :=
      (campsites,
       NextErr (mkError "Error" ("Comment " +:+ commentId req +:+ " not found")
                  (Some 404))) in
    comment_get users req campsites = missing
    /\ comment_put accepts req req_user campsites = missing
    /\ comment_delete accepts req req_user campsites
       = (campsites,
          NextErr (mkError "TypeError" "Cannot read property 'author' of null" None)).
Proof.
  intros req req_user campsites campsite Hc Hk missing. subst missing.
  unfold comment_get, comment_put, comment_delete.
  rewrite Hc. simpl. rewrite Hk. repeat split.
Qed.

(** X6: whatever the request, the user and the collection, deleting one
    comment never ends with status 403: its status is 200, 404 or none, and
    unless it is 200 the collection is untouched. *)
Theorem comment_delete_never_403 :
  forall req req_user campsites,
    let r := comment_delete accepts req req_user campsites in
    status_of (snd r) <> Some 403
    /\ (status_of (snd r) = Some 200
        \/ (fst r = campsites
            /\ (status_of (snd r) = Some 404 \/ status_of (snd r) = None))).
Proof.
  intros req req_user campsites r. subst r. unfold comment_delete.
  destruct (findById campsite_id campsites (campsiteId req)) as [[campsite|]|e] eqn:Hc;
    [| |unfold findById, findOne in Hc; discriminate].
  - destruct (comments_id campsite (commentId req)) as [comment|] eqn:Hk.
    + destruct (author comment) as [a|].
      * destruct (String.eqb (_id req_user) a || admin req_user).
        -- rewrite bool_decide_eq_true_2 by eauto. simpl.
           unfold save. destruct (accepts campsites _); simpl.
           ++ split; [discriminate|now left].
           ++ split; [discriminate|right; split; [reflexivity|now right]].
        -- rewrite bool_decide_eq_true_2 by eauto. simpl.
           split; [discriminate|right; split; [reflexivity|now left]].
      * simpl. split; [discriminate|right; split; [reflexivity|now right]].
    + simpl. split; [discriminate|right; split; [reflexivity|now right]].
  - simpl. split; [discriminate|right; split; [reflexivity|now right]].
Qed.



End CommentsFacts.

Lemma delete_all_comments_leaves_none_witness :
  CampsiteRouter.comments_delete accept_all (example_request dave ∅) [example_campsite]
  = ([CampsiteRouter.mkCampsite "s1" ∅ []],
     ResJson 200 (CampsiteRouter.Document (CampsiteRouter.mkCampsite "s1" ∅ []))).
Proof.
  apply (delete_all_comments_leaves_none accept_all example_users
           (example_request dave ∅) [example_campsite] example_campsite eq_refl).
  - simpl. constructor; [simpl; tauto|constructor].
  - reflexivity.
Defined.

Lemma edit_then_read_witness :
  CampsiteRouter.comment_get example_users
    (example_request alice (<["rating" := JNum 0]> (<["text" := JStr "Better"]> ∅)))
    (fst (CampsiteRouter.comment_put accept_all
            (example_request alice
               (<["rating" := JNum 0]> (<["text" := JStr "Better"]> ∅)))
            alice [example_campsite]))
  = ([CampsiteRouter.mkCampsite "s1" ∅
        [CampsiteRouter.mkComment "k1" (Some (JNum 5)) (Some (JStr "Better"))
           (Some "a1")]],
     ResJson 200
       (CampsiteRouter.OneComment
          (CampsiteRouter.mkComment "k1" (Some (JNum 5)) (Some (JStr "Better"))
             (Some "a1"), Some alice))).
Proof.
  pose proof (edit_then_read accept_all example_users
                (example_request alice
                   (<["rating" := JNum 0]> (<["text" := JStr "Better"]> ∅)))
                alice [example_campsite] example_campsite example_comment
                eq_refl eq_refl eq_refl eq_refl) as H.
  destruct H as (_ & H & _). rewrite H. vm_compute. reflexivity.
Defined.

Lemma empty_edit_changes_nothing_witness :
  CampsiteRouter.comment_put accept_all
    (example_request alice (<["rating" := JNum 0]> (<["text" := JStr ""]> ∅)))
    alice [example_campsite]
  = ([example_campsite], ResJson 200 (CampsiteRouter.Document example_campsite)).
Proof.
  apply (empty_edit_changes_nothing accept_all
           (example_request alice (<["rating" := JNum 0]> (<["text" := JStr ""]> ∅)))
           alice [example_campsite] example_campsite example_comment);
    reflexivity.
Defined.

Lemma unknown_campsite_witness :
  CampsiteRouter.comment_put accept_all
    (CampsiteRouter.mkRequest None "zz" "k1" ∅ 2000 "k2") alice [example_campsite]
  = ([example_campsite],
     NextErr (mkError "Error" "Campsite zz not found" (Some 404)))
  /\ CampsiteRouter.comment_delete accept_all
       (CampsiteRouter.mkRequest None "zz" "k1" ∅ 2000 "k2") alice [example_campsite]
     = ([example_campsite],
        NextErr (mkError "TypeError" "Cannot read property 'comments' of null" None)).
Proof.
  pose proof (unknown_campsite accept_all example_users
                (CampsiteRouter.mkRequest None "zz" "k1" ∅ 2000 "k2") alice
                [example_campsite] eq_refl) as H.
  destruct H as (_ & _ & _ & _ & Hput & Hdel). split; [exact Hput|exact Hdel].
Defined.

Lemma unknown_comment_witness :
  CampsiteRouter.comment_put accept_all
    (CampsiteRouter.mkRequest None "s1" "zz" ∅ 2000 "k2") alice [example_campsite]
  = ([example_campsite],
     NextErr (mkError "Error" "Comment zz not found" (Some 404)))
  /\ CampsiteRouter.comment_delete accept_all
       (CampsiteRouter.mkRequest None "s1" "zz" ∅ 2000 "k2") alice [example_campsite]
     = ([example_campsite],
        NextErr (mkError "TypeError" "Cannot read property 'author' of null" None)).
Proof.
  pose proof (unknown_comment accept_all example_users
                (CampsiteRouter.mkRequest None "s1" "zz" ∅ 2000 "k2") alice
                [example_campsite] example_campsite eq_refl eq_refl) as H.
  destruct H as (_ & Hput & Hdel). split; [exact Hput|exact Hdel].
Defined.



(** ** Campsites *)

Lemma find_app_other {A} (f : A -> bool) (l : list A) (x : A) :
  f x = false -> List.find f (l ++ [x]) = List.find f l.
Proof.
  intros Hx. induction l as [|y l IH]; simpl; [now rewrite Hx|].
  now destruct (f y).
Qed.

Section CampsiteFacts.
Variable accepts : list CampsiteRouter.Campsite -> CampsiteRouter.Campsite -> bool.
Variable users : list User.

Import CampsiteRouter.

(** X9: for a campsite id that is not in the collection, [GET], [PUT] and
    [DELETE] on [/:campsiteId] do not fail: each answers 200 with [null]
    and leaves the collection as it is. *)
Theorem campsite_routes_answer_null :
  forall req campsites,
    findById campsite_id campsites (campsiteId req) = Resolved None ->
    campsite_get users req campsites = (campsites, ResJson 200 (Populated None))
    /\ campsite_put req campsites = (campsites, ResJson 200 (DocumentOrNull None))
    /\ campsite_delete req campsites
       = (campsites, ResJson 200 (DocumentOrNull None)).
Proof.
  intros req campsites Hnone.
  unfold campsite_get, campsite_put, campsite_delete. rewrite Hnone.
  repeat split. simpl. f_equal. apply remove_id_absent.
  unfold findById, findOne in Hnone. now inversion Hnone.
Qed.

(** X10: the document an accepted [POST /] answers with, for a body that
    names no [_id] and created under an id no campsite has yet, is the one
    [GET /:campsiteId] returns for that id afterwards, and the campsites that
    were there are found as before. *)
Theorem create_then_read :
  forall req campsites campsites' created,
    body req !! "_id" = None ->
    findById campsite_id campsites (oid req) = Resolved None ->
    root_post accepts req campsites = (campsites', ResJson 200 (Document created)) ->
    campsite_id created = oid req
    /\ (forall req',
          campsiteId req' = oid req ->
          campsite_get users req' campsites'
          = (campsites', ResJson 200 (Populated (Some (populate users created)))))
    /\ forall j, j <> oid req ->
                 findById campsite_id campsites' j = findById campsite_id campsites j.
Proof.
  intros req campsites campsites' created _ Hfresh Hpost.
  unfold root_post, create in Hpost.
  destruct (accepts campsites _); [|discriminate].
  injection Hpost as <- <-. simpl.
  unfold findById, findOne in Hfresh. inversion Hfresh as [Hf].
  split; [reflexivity|]. split.
  - intros req' Hid. unfold campsite_get, findById, findOne. rewrite Hid.
    rewrite (find_app_last _ campsites _ Hf); [reflexivity|].
    simpl. apply String.eqb_refl.
  - intros j Hj. unfold findById, findOne. f_equal.
    apply find_app_other. simpl. apply String.eqb_neq. congruence.
Qed.


(** X12: when the ids of the campsites are distinct, after
    [DELETE /:campsiteId] a [GET] of that id answers [null], and every
    other campsite is found as before. *)
Theorem campsite_gone_after_delete :
  forall req campsites,
    List.NoDup (map campsite_id campsites) ->
    let campsites' := fst (campsite_delete req campsites) in
    campsite_get users req campsites' = (campsites', ResJson 200 (Populated None))
    /\ forall j, j <> campsiteId req ->
                 findById campsite_id campsites' j = findById campsite_id campsites j.
Proof.
  intros req campsites Hnd campsites'. subst campsites'.
  unfold campsite_delete, findById, findOne. simpl. split.
  - unfold campsite_get, findById, findOne.
    now rewrite find_remove_id_unique.
  - intros j Hj. f_equal. now apply find_remove_id_other.
Qed.

End CampsiteFacts.

Lemma campsite_routes_answer_null_witness :
  CampsiteRouter.campsite_delete (CampsiteRouter.mkRequest None "zz" "" ∅ 2000 "k2")
    [example_campsite]
  = ([example_campsite], ResJson 200 (CampsiteRouter.DocumentOrNull None)).
Proof.
  apply (campsite_routes_answer_null example_users
           (CampsiteRouter.mkRequest None "zz" "" ∅ 2000 "k2") [example_campsite]
           eq_refl).
Defined.

Lemma create_then_read_witness :
  CampsiteRouter.campsite_get example_users
    (CampsiteRouter.mkRequest None "s2" "" ∅ 3000 "k3")
    [example_campsite; CampsiteRouter.mkCampsite "s2" (<["name" := JStr "Lake"]> ∅) []]
  = ([example_campsite; CampsiteRouter.mkCampsite "s2" (<["name" := JStr "Lake"]> ∅) []],
     ResJson 200
       (CampsiteRouter.Populated
          (Some (CampsiteRouter.populate example_users
                   (CampsiteRouter.mkCampsite "s2" (<["name" := JStr "Lake"]> ∅) []))))).
Proof.
  assert (Hid : CampsiteRouter.body
                  (CampsiteRouter.mkRequest None "" ""
                     (<["name" := JStr "Lake"]> ∅) 2000 "s2") !! "_id" = None)
    by (vm_compute; reflexivity).
  apply (create_then_read accept_all example_users
           (CampsiteRouter.mkRequest None "" "" (<["name" := JStr "Lake"]> ∅) 2000 "s2")
           [example_campsite] _ _ Hid eq_refl eq_refl).
  reflexivity.
Defined.


Lemma campsite_gone_after_delete_witness :
  CampsiteRouter.campsite_get example_users (example_request dave ∅)
    (fst (CampsiteRouter.campsite_delete (example_request dave ∅) [example_campsite]))
  = (fst (CampsiteRouter.campsite_delete (example_request dave ∅) [example_campsite]),
     ResJson 200 (CampsiteRouter.Populated None)).
Proof.
  apply (campsite_gone_after_delete example_users (example_request dave ∅) [example_campsite]).
  simpl. constructor; [simpl; tauto|constructor].
Defined.

(** ** What a request can and cannot change *)

Lemma filter_others_snoc uid (cs : list CampsiteRouter.Comment) c :
  written_by uid c = true ->
  List.filter (fun k => negb (written_by uid k)) (cs ++ [c])
  = List.filter (fun k => negb (written_by uid k)) cs.
Proof.
  intros Hc. rewrite List.filter_app. simpl. rewrite Hc. simpl.
  apply app_nil_r.
Qed.

Lemma written_by_author uid c :
  CampsiteRouter.author c = Some uid -> written_by uid c = true.
Proof. unfold written_by. intros ->. apply String.eqb_refl. Qed.

Section RequestFacts.
Variable accepts : list CampsiteRouter.Campsite -> CampsiteRouter.Campsite -> bool.
Variable users : list User.
Variable hmac : string -> Authenticate.Payload -> string.
Variable secretKey : string.

Import CampsiteRouter.

Lemma beyond_replace uid campsites campsite campsite' i :
  findById campsite_id campsites i = Resolved (Some campsite) ->
  campsite_id campsite' = campsite_id campsite ->
  beyond uid campsite' = beyond uid campsite ->
  map (beyond uid) (replace campsite_id campsites campsite')
  = map (beyond uid) campsites.
Proof.
  unfold findById, findOne. intros H Hid Hb. inversion H as [Hf].
  apply (map_replace campsite_id (beyond uid) campsites campsite campsite');
    [|exact Hb].
  now rewrite Hid, (find_by_id_id campsite_id _ _ campsite Hf).
Qed.

Lemma comments_post_beyond req req_user campsites :
  map (beyond (_id req_user)) (fst (comments_post accepts req req_user campsites))
  = map (beyond (_id req_user)) campsites.
Proof.
  unfold comments_post, save.
  destruct (findById campsite_id campsites (campsiteId req)) as [[campsite|]|e] eqn:Hc;
    try reflexivity.
  destruct (accepts campsites _); [|reflexivity]. simpl.
  apply (beyond_replace _ _ campsite _ _ Hc); [reflexivity|].
  unfold beyond, push. simpl. f_equal.
  apply filter_others_snoc. apply written_by_author. simpl.
  now rewrite lookup_insert_eq.
Qed.

Lemma comment_put_beyond req req_user campsites :
  map (beyond (_id req_user)) (fst (comment_put accepts req req_user campsites))
  = map (beyond (_id req_user)) campsites.
Proof.
  unfold comment_put.
  destruct (findById campsite_id campsites (campsiteId req)) as [[campsite|]|e] eqn:Hc;
    try reflexivity.
  simpl.
  destruct (comments_id campsite (commentId req)) as [comment|] eqn:Hk;
    [|reflexivity].
  destruct (author comment) as [a|] eqn:Ha; [|reflexivity].
  destruct (String.eqb (_id req_user) a) eqn:He; [|reflexivity].
  apply String.eqb_eq in He. subst a.
  unfold save. destruct (accepts campsites _); [|reflexivity]. simpl.
  apply (beyond_replace _ _ campsite _ _ Hc); [reflexivity|].
  unfold beyond. simpl. f_equal.
  unfold comments_id in Hk.
  pose proof (find_by_id_id comment_id _ _ comment Hk) as Hi.
  apply (filter_replace comment_id _ (comments campsite) comment).
  - destruct (truthy (body req !! "rating")), (truthy (body req !! "text")); simpl;
      now rewrite Hi.
  - now rewrite (written_by_author _ comment Ha).
  - unfold written_by.
    destruct (truthy (body req !! "rating")), (truthy (body req !! "text")); simpl;
      rewrite ?Ha, String.eqb_refl; reflexivity.
Qed.

Lemma comment_delete_beyond req req_user campsites :
  admin req_user = false ->
  map (beyond (_id req_user)) (fst (comment_delete accepts req req_user campsites))
  = map (beyond (_id req_user)) campsites.
Proof.
  intros Hadm. unfold comment_delete. rewrite Hadm.
  destruct (findById campsite_id campsites (campsiteId req)) as [[campsite|]|e] eqn:Hc;
    try reflexivity.
  destruct (comments_id campsite (commentId req)) as [comment|] eqn:Hk;
    [|reflexivity].
  destruct (author comment) as [a|] eqn:Ha; [|reflexivity].
  rewrite orb_false_r.
  destruct (String.eqb (_id req_user) a) eqn:He; [|reflexivity].
  apply String.eqb_eq in He. subst a.
  rewrite !bool_decide_eq_true_2 by eauto. simpl.
  unfold save. destruct (accepts campsites _); [|reflexivity]. simpl.
  apply (beyond_replace _ _ campsite _ _ Hc); [reflexivity|].
  unfold beyond. simpl. f_equal.
  unfold comments_id in Hk.
  apply (filter_remove_id comment_id _ (comments campsite) _ comment Hk).
  now rewrite (written_by_author _ comment Ha).
Qed.

(** X13: on a collection in which the comments of each campsite have
    distinct ids, whatever request an authenticated user without the admin
    flag sends to the campsite router, on any path and with any method, the
    collection afterwards has the same campsites in the same order, each
    with the id and the fields it had and with the comments of all other
    authors as they were: only that user's own comments can have changed. *)
Theorem ordinary_user_cannot_touch_others :
  forall p m req campsites user,
    Forall (fun c => List.NoDup (map comment_id (comments c))) campsites ->
    Authenticate.verifyUser hmac secretKey users (now req) (authorization req)
    = Authenticate.Authenticated user ->
    admin user = false ->
    map (beyond (_id user))
      (fst (campsiteRouter accepts users hmac secretKey p m req campsites))
    = map (beyond (_id user)) campsites.
Proof.
  intros p m req campsites user _ Hauth Hadm.
  destruct m.
  - now rewrite get_handlers_read_only.
  - unfold campsiteRouter.
    destruct p; cbn [middleware run handler]; rewrite Hauth;
      rewrite ?verifyAdmin_spec, ?Hadm; try reflexivity.
    apply comments_post_beyond.
  - unfold campsiteRouter.
    destruct p; cbn [middleware run handler]; rewrite Hauth;
      rewrite ?verifyAdmin_spec, ?Hadm; try reflexivity.
    apply comment_put_beyond.
  - unfold campsiteRouter.
    destruct p; cbn [middleware run handler]; rewrite Hauth;
      rewrite ?verifyAdmin_spec, ?Hadm; try reflexivity.
    now apply comment_delete_beyond.
Qed.

(** X14: the four operations the router does not support ([PUT /],
    [POST /:campsiteId], [PUT /:campsiteId/comments] and
    [POST /:campsiteId/comments/:commentId]) never change the collection,
    and their answer has status 403 for every request whose token
    [verifyUser] accepts, admin or not, and status 401 for every other. *)
Theorem unsupported_operations :
  forall p m req campsites,
    (p, m) = (Root, PUT) \/ (p, m) = (CampsitePath, POST)
    \/ (p, m) = (CommentsPath, PUT) \/ (p, m) = (CommentPath, POST) ->
    let r := campsiteRouter accepts users hmac secretKey p m req campsites in
    fst r = campsites
    /\ ((exists user,
           Authenticate.verifyUser hmac secretKey users (now req) (authorization req)
           = Authenticate.Authenticated user)
        -> exists text, snd r = ResEnd 403 text)
    /\ ((forall user,
           Authenticate.verifyUser hmac secretKey users (now req) (authorization req)
           <> Authenticate.Authenticated user)
        -> snd r = ResEnd 401 "Unauthorized").
Proof.
  intros p m req campsites Hpm r. subst r.
  split; [|split].
  - unfold campsiteRouter.
    destruct Hpm as [H|[H|[H|H]]]; injection H as -> ->;
      cbn [middleware run handler];
      destruct (Authenticate.verifyUser _ _ _ _ _); reflexivity.
  - intros [user Hauth]. unfold campsiteRouter.
    destruct Hpm as [H|[H|[H|H]]]; injection H as -> ->;
      cbn [middleware run handler]; rewrite Hauth; simpl; eexists; reflexivity.
  - intros Hno. rewrite mutating_needs_token; [reflexivity| |exact Hno].
    destruct Hpm as [H|[H|[H|H]]]; injection H as -> ->; discriminate.
Qed.

End RequestFacts.

Lemma ordinary_user_cannot_touch_others_witness :
  map (beyond "c3")
    (fst (CampsiteRouter.campsiteRouter accept_all example_users example_hmac "key"
            CampsiteRouter.CommentsPath CampsiteRouter.POST
            (example_request carol (<["text" := JStr "Hi"]> ∅)) [example_campsite]))
  = map (beyond "c3") [example_campsite].
Proof.
  apply (ordinary_user_cannot_touch_others accept_all example_users example_hmac "key"
           CampsiteRouter.CommentsPath CampsiteRouter.POST
           (example_request carol (<["text" := JStr "Hi"]> ∅)) [example_campsite]
           carol).
  - constructor; [|constructor]. simpl. constructor; [simpl; tauto|constructor].
  - reflexivity.
  - reflexivity.
Defined.

Lemma unsupported_operations_witness :
  fst (CampsiteRouter.campsiteRouter accept_all example_users example_hmac "key"
         CampsiteRouter.Root CampsiteRouter.PUT (example_request dave ∅)
         [example_campsite])
  = [example_campsite].
Proof.
  apply (unsupported_operations accept_all example_users example_hmac "key"
           CampsiteRouter.Root CampsiteRouter.PUT (example_request dave ∅)
           [example_campsite]).
  now left.
Defined.

(** ** Favorites *)

Lemma find_replace_pred {A} (id_of : A -> ObjectId) (f : A -> bool)
  (c : list A) (d d' : A) :
  List.find f c = Some d ->
  id_of d' = id_of d ->
  f d' = true ->
  List.find f (replace id_of c d') = Some d'.
Proof.
  intros Hfind Hid Hd'. induction c as [|x c IH]; simpl in *; [discriminate|].
  destruct (f x) eqn:Hx.
  - inversion Hfind; subst. rewrite Hid, String.eqb_refl. simpl. now rewrite Hd'.
  - destruct (String.eqb (id_of x) (id_of d')); simpl.
    + now rewrite Hd'.
    + rewrite Hx. now apply IH.
Qed.

Lemma remove_id_split {A} (id_of : A -> ObjectId) (c : list A) (i : ObjectId) (d : A) :
  List.find (fun x => String.eqb (id_of x) i) c = Some d ->
  exists l1 l2, c = l1 ++ d :: l2 /\ remove_id id_of c i = l1 ++ l2.
Proof.
  induction c as [|x c IH]; simpl; [discriminate|].
  destruct (String.eqb (id_of x) i) eqn:Hx.
  - intros H. inversion H; subst. now exists [], c.
  - intros H. destruct (IH H) as (l1 & l2 & -> & Hr).
    exists (x :: l1), l2. simpl. now rewrite Hr.
Qed.

Section MoreFavoriteFacts.
Variable accepts : list FavoriteRouter.Favorite -> FavoriteRouter.Favorite -> bool.

Import FavoriteRouter.



(** X16: after [POST /favorites/:campsiteId] was answered 200 with the
    favorites document, the same request again is answered "That campsite
    is already a favorite!" and changes nothing. *)
Theorem favorite_post_twice :
  forall campsiteId req_user oid favorites favorites' doc,
    favorite_post accepts campsiteId req_user oid favorites
    = (favorites', ResJson 200 doc) ->
    forall oid',
      favorite_post accepts campsiteId req_user oid' favorites'
      = (favorites', ResEnd 200 "That campsite is already a favorite!").
Proof.
  intros campsiteId req_user oid favorites favorites' doc Hpost oid'.
  unfold favorite_post in Hpost.
  destruct (findOne _ favorites) as [[favorite|]|e] eqn:Hf; [| |discriminate].
  - destruct (includes (campsites favorite) campsiteId) eqn:Hinc; simpl in Hpost;
      [discriminate|].
    unfold save in Hpost. destruct (accepts favorites _); [|discriminate].
    injection Hpost as <- _.
    apply favorite_post_present
      with (favorite := mkFavorite (favorite_id favorite) (user favorite)
                          (campsites favorite ++ [campsiteId])).
    + unfold findOne in *. inversion Hf as [Hfind]. f_equal.
      apply (find_replace_pred favorite_id _ favorites favorite); [exact Hfind| |].
      * reflexivity.
      * simpl. exact (find_satisfies _ _ _ Hfind).
    + simpl. rewrite in_app_iff. right. now left.
  - unfold create in Hpost. destruct (accepts favorites _); [|discriminate].
    injection Hpost as <- _.
    apply favorite_post_present
      with (favorite := mkFavorite oid (_id req_user) [campsiteId]).
    + unfold findOne in *. inversion Hf as [Hfind]. f_equal.
      apply find_app_last; [exact Hfind|]. simpl. apply String.eqb_refl.
    + now left.
Qed.

Lemma find_by_user_absent favorites uid :
  List.find (fun f => String.eqb (user f) uid) favorites = None ->
  ~ In uid (map user favorites).
Proof. apply (find_absent_not_in user). Qed.

(** What one add does to the owners and ids of the documents: nothing, or
    one more document of the requesting user under the id drawn. *)
Lemma add_shape req_user favorites (a : Add) :
  List.NoDup (map favorite_id favorites) ->
  (map user (add accepts req_user favorites a) = map user favorites
   /\ map favorite_id (add accepts req_user favorites a) = map favorite_id favorites)
  \/ (~ In (_id req_user) (map user favorites)
      /\ map user (add accepts req_user favorites a)
         = map user favorites ++ [_id req_user]
      /\ map favorite_id (add accepts req_user favorites a)
         = map favorite_id favorites ++ [add_oid a]).
Proof.
  intros Hids.
  assert (Hrep : forall favorite stored,
             findOne (fun f => String.eqb (user f) (_id req_user)) favorites
             = Resolved (Some favorite) ->
             favorite_id stored = favorite_id favorite ->
             user stored = user favorite ->
             map user (replace favorite_id favorites stored) = map user favorites
             /\ map favorite_id (replace favorite_id favorites stored)
                = map favorite_id favorites).
  { intros favorite stored Hf Hid Hu. unfold findOne in Hf. inversion Hf as [Hfind].
    apply find_some in Hfind as [Hin _].
    pose proof (find_unique favorite_id favorites favorite Hin Hids) as Hby.
    rewrite <- Hid in Hby. split.
    - now apply (map_replace favorite_id user favorites favorite stored).
    - now apply (map_id_replace favorite_id favorites favorite stored). }
  destruct a as [req_body oid|campsiteId oid]; simpl.
  - unfold favorites_post.
    destruct (findOne _ favorites) as [[favorite|]|e] eqn:Hf; simpl; [| |now left].
    + unfold save. destruct (accepts _ _); simpl; [|now left].
      left. now apply (Hrep favorite).
    + unfold create. destruct (accepts _ _); simpl; [|now left].
      right. rewrite !map_app. simpl. split; [|now split].
      apply find_by_user_absent. unfold findOne in Hf. now inversion Hf.
  - unfold favorite_post.
    destruct (findOne _ favorites) as [[favorite|]|e] eqn:Hf; simpl; [| |now left].
    + destruct (includes (campsites favorite) campsiteId); simpl; [now left|].
      unfold save. destruct (accepts _ _); simpl; [|now left].
      left. now apply (Hrep favorite).
    + unfold create. destruct (accepts _ _); simpl; [|now left].
      right. rewrite !map_app. simpl. split; [|now split].
      apply find_by_user_absent. unfold findOne in Hf. now inversion Hf.
Qed.

(** X17: if every user has at most one favorites document and no two
    documents share an id, this stays so after any sequence of adds by a
    user, as long as the ids drawn for new documents are distinct and not
    in use. *)
Theorem add_all_one_per_user :
  forall req_user (l : list Add) favorites,
    one_per_user favorites ->
    List.NoDup (map favorite_id favorites ++ map add_oid l) ->
    one_per_user (add_all accepts req_user favorites l).
Proof.
  intros req_user l. unfold add_all.
  induction l as [|a l IH]; simpl; intros favorites [Hu Hi] Hfresh; [now split|].
  destruct (add_shape req_user favorites a Hi) as [[Eu Ei]|(Hnew & Eu & Ei)].
  - apply IH.
    + split; [now rewrite Eu|now rewrite Ei].
    + rewrite Ei. now apply NoDup_remove_1 in Hfresh.
  - assert (Hfresh' : List.NoDup ((map favorite_id favorites ++ [add_oid a])
                                  ++ map add_oid l))
      by now rewrite <- app_assoc.
    apply IH.
    + split.
      * rewrite Eu. now apply NoDup_snoc.
      * rewrite Ei. now apply NoDup_app_remove_r in Hfresh'.
    + now rewrite Ei.
Qed.

(** X18: [DELETE /favorites] for a user without a favorites document
    answers 404 with "You do not have any favorites to delete." and changes
    nothing.  When every user has at most one document and ids are not
    shared, this is the answer to a second [DELETE] right after a first
    one; the first one leaves the documents of all other users in place. *)
Theorem favorites_delete_once :
  forall req_user favorites,
    one_per_user favorites ->
    let favorites' := fst (favorites_delete req_user favorites) in
    favorites_delete req_user favorites'
    = (favorites', ResEnd 404 "You do not have any favorites to delete.")
    /\ one_per_user favorites'
    /\ forall other,
         other <> _id req_user ->
         List.find (fun f => String.eqb (user f) other) favorites'
         = List.find (fun f => String.eqb (user f) other) favorites.
Proof.
  intros req_user favorites [Hu Hi] favorites'. subst favorites'.
  remember (fst (favorites_delete req_user favorites)) as rest eqn:Hrest.
  unfold favorites_delete, findOne in Hrest.
  destruct (List.find _ favorites) as [favorite|] eqn:Hf; simpl in Hrest; subst rest.
  - pose proof (find_satisfies _ _ _ Hf) as Huser. simpl in Huser.
    apply String.eqb_eq in Huser.
    apply find_some in Hf as [Hin _].
    pose proof (find_unique favorite_id favorites favorite Hin Hi) as Hby.
    destruct (remove_id_split favorite_id favorites _ favorite Hby)
      as (l1 & l2 & Hs & Hr).
    rewrite Hr. rewrite Hs in Hu, Hi. rewrite map_app in Hu, Hi. simpl in Hu, Hi.
    assert (Hgone : List.find (fun f => String.eqb (user f) (_id req_user)) (l1 ++ l2)
                    = None).
    { apply (find_absent_not_in user). rewrite map_app, <- Huser.
      now apply NoDup_remove_2 in Hu. }
    split; [|split].
    + unfold favorites_delete, findOne. now rewrite Hgone.
    + split; rewrite map_app.
      * now apply NoDup_remove_1 in Hu.
      * now apply NoDup_remove_1 in Hi.
    + intros other Hother. rewrite Hs.
      assert (Hskip : String.eqb (user favorite) other = false)
        by (apply String.eqb_neq; congruence).
      clear - Hskip. induction l1 as [|x l1 IH]; simpl.
      * now rewrite Hskip.
      * destruct (String.eqb (user x) other); [reflexivity|exact IH].
  - split; [|split].
    + unfold favorites_delete, findOne. now rewrite Hf.
    + now split.
    + reflexivity.
Qed.

End MoreFavoriteFacts.


Lemma favorite_post_twice_witness :
  FavoriteRouter.favorite_post accept_all "s2" alice "f8"
    [FavoriteRouter.mkFavorite "f1" "a1" ["s1"; "s2"]]
  = ([FavoriteRouter.mkFavorite "f1" "a1" ["s1"; "s2"]],
     ResEnd 200 "That campsite is already a favorite!").
Proof.
  apply (favorite_post_twice accept_all "s2" alice "f9" example_favorites
           _ _ eq_refl "f8").
Defined.

Lemma add_all_one_per_user_witness :
  FavoriteRouter.one_per_user
    (FavoriteRouter.add_all accept_all carol example_favorites
       [FavoriteRouter.AddOne "s1" "f2";
        FavoriteRouter.AddList [FavoriteRouter.mkFavCampsite "s2"] "f3"]).
Proof.
  apply (add_all_one_per_user accept_all carol).
  - split; simpl; (constructor; [simpl; tauto|constructor]).
  - simpl. repeat constructor; simpl; intuition discriminate.
Defined.

Lemma favorites_delete_once_witness :
  FavoriteRouter.favorites_delete alice
    (fst (FavoriteRouter.favorites_delete alice example_favorites))
  = (fst (FavoriteRouter.favorites_delete alice example_favorites),
     ResEnd 404 "You do not have any favorites to delete.").
Proof.
  apply (favorites_delete_once alice example_favorites).
  split; simpl; (constructor; [simpl; tauto|constructor]).
Defined.

(** ** Tokens, logins and the users they resolve to *)

Section LoginFacts.
Variable kdf : string -> string -> string.
Variable hmac : string -> Authenticate.Payload -> string.
Variable secretKey : string.

Import Authenticate.

Lemma jwt_verify_payload token secret now p :
  jwt_verify hmac token secret now = inr p -> p = payload token.
Proof.
  unfold jwt_verify.
  destruct (String.eqb _ _); [|discriminate].
  destruct (Z.leb _ _); [discriminate|]. intros H. now inversion H.
Qed.

(** X19: a token naming a user id that no stored user has is rejected by
    [verifyUser] with 401, whatever its signature and whenever it is
    presented; so is the users listing that [verifyUser] guards. *)
Theorem token_of_unknown_user_rejected :
  forall users token now,
    (forall u, In u users -> _id u <> jwt_id (payload token)) ->
    verifyUser hmac secretKey users now (Some token) = Unauthorized
    /\ Users.users_get hmac secretKey users now (Some token)
       = ResEnd 401 "Unauthorized".
Proof.
  intros users token now Hnone.
  assert (H : verifyUser hmac secretKey users now (Some token) = Unauthorized).
  { unfold verifyUser.
    destruct (jwt_verify hmac token (opts_secretOrKey secretKey) now) as [e|p] eqn:Hv;
      [reflexivity|].
    apply jwt_verify_payload in Hv. subst p.
    unfold jwtPassport, findOne.
    replace (List.find _ users) with (@None User); [reflexivity|].
    symmetry. apply find_none_iff. intros u Hu. apply String.eqb_neq.
    now apply Hnone. }
  split; [exact H|]. unfold Users.users_get. now rewrite H.
Qed.

(** X20: when user ids are distinct, the token a successful login answers
    with, presented at any time within 3600 seconds of the login, makes
    [verifyUser] resolve the very user the login authenticated. *)
Theorem login_token_authenticates :
  forall users body T token status t,
    Users.login kdf hmac secretKey users body T
    = ResJson 200 (Users.LoggedIn true token status) ->
    List.NoDup (map _id users) ->
    (T <= t < T + 3600)%Z ->
    exists user,
      Users.passport_local kdf users body = Authenticated user
      /\ In user users
      /\ username user = Users.body_username body
      /\ verifyUser hmac secretKey users t (Some token) = Authenticated user.
Proof.
  intros users body T token status t Hlogin Hnd [_ Hlt].
  unfold Users.login in Hlogin.
  destruct (Users.passport_local kdf users body) as [user| |e] eqn:Hlocal;
    try discriminate.
  injection Hlogin as <- _. exists user.
  unfold Users.passport_local, local, PassportLocalMongoose.authenticate in Hlocal.
  destruct (PassportLocalMongoose.findByUsername users (Users.body_username body))
    as [u|] eqn:Hfind; [|discriminate].
  destruct (String.eqb _ _); [|discriminate].
  injection Hlocal as ->.
  unfold PassportLocalMongoose.findByUsername in Hfind.
  pose proof (find_satisfies _ _ _ Hfind) as Hname. simpl in Hname.
  apply String.eqb_eq in Hname.
  apply find_some in Hfind as [Hin _].
  split; [reflexivity|]. split; [exact Hin|]. split; [exact Hname|].
  unfold verifyUser. rewrite jwt_verify_getToken.
  destruct (Z.leb_spec (T + 3600) t) as [Hle|_]; [lia|].
  unfold jwtPassport, findOne. simpl.
  now rewrite (find_unique _id users user Hin Hnd).
Qed.

End LoginFacts.

Section FacebookFacts.
Variable accepts : list User -> User -> bool.

Import Authenticate.

(** X21: a Facebook login never changes or removes a stored user: the
    collection afterwards is the old one, or the old one followed by one
    new user under the id drawn.  Whenever it resolves to a user, that user
    is stored and carries the external id of the profile; whenever it
    reports an error, nothing was stored and no user is resolved. *)
Theorem facebook_login_keeps_users :
  forall users oid profile,
    let users' := fst (facebookPassport accepts users oid profile) in
    let d := snd (facebookPassport accepts users oid profile) in
    (users' = users
     \/ exists u, users' = users ++ [u] /\ _id u = oid /\ d = done None (Some u))
    /\ (forall u, d = done None (Some u) ->
                  In u users' /\ facebookId u = Some (id profile))
    /\ (forall e u, d = done (Some e) u -> users' = users /\ u = None).
Proof.
  intros users oid profile users' d. subst users' d.
  unfold facebookPassport, findOne, create.
  destruct (List.find _ users) as [user|] eqn:Hf; simpl.
  - split; [now left|]. split.
    + intros u Hu. inversion Hu; subst.
      pose proof (find_satisfies _ _ _ Hf) as Hfb. simpl in Hfb.
      apply bool_decide_eq_true in Hfb.
      apply find_some in Hf as [Hin _]. now split.
    + intros e u Hd. discriminate.
  - destruct (accepts users _); simpl.
    + split; [right; eexists; repeat split|]. split.
      * intros u Hu. inversion Hu; subst. split; [|reflexivity].
        apply in_app_iff. right. now left.
      * intros e u Hd. discriminate.
    + split; [now left|]. split.
      * intros u Hu. discriminate.
      * intros e u Hd. inversion Hd. now split.
Qed.

End FacebookFacts.

Section SignupFacts.
Variable kdf : string -> string -> string.
Variable accepts : list User -> User -> bool.

Import PassportLocalMongoose.


End SignupFacts.

Lemma token_of_unknown_user_rejected_witness :
  Authenticate.verifyUser example_hmac "key" example_users 2000
    (Some (Authenticate.getToken example_hmac "key" "zz" 1000))
  = Authenticate.Unauthorized.
Proof.
  apply (token_of_unknown_user_rejected example_hmac "key" example_users
           (Authenticate.getToken example_hmac "key" "zz" 1000) 2000).
  intros u Hu. simpl in Hu.
  destruct Hu as [<-|[<-|[<-|[]]]]; discriminate.
Defined.

Lemma login_token_authenticates_witness :
  exists user,
    username user = "erin"
    /\ Authenticate.verifyUser example_hmac "key" users_with_erin 4599
         (Some (Authenticate.getToken example_hmac "key" "e5" 1000))
       = Authenticate.Authenticated user.
Proof.
  destruct (login_token_authenticates example_kdf example_hmac "key"
              users_with_erin erin_body 1000 _ _ 4599 eq_refl) as (user & H).
  - vm_compute. repeat constructor; simpl; intuition discriminate.
  - lia.
  - exists user. destruct H as (_ & _ & Hname & Hv). split; [exact Hname|exact Hv].
Defined.

Lemma facebook_login_keeps_users_witness :
  fst (Authenticate.facebookPassport accept_all example_users "e5" example_profile)
  = example_users
  \/ exists u,
       fst (Authenticate.facebookPassport accept_all example_users "e5" example_profile)
       = example_users ++ [u]
       /\ _id u = "e5"
       /\ snd (Authenticate.facebookPassport accept_all example_users "e5"
                 example_profile)
          = Authenticate.done None (Some u).
Proof.
  exact (proj1 (facebook_login_keeps_users accept_all example_users "e5"
                  example_profile)).
Defined.

